(** * yt2tandoor: the recipe-format converter, the duplicate resolver,
      the pipeline orchestrator and the job queue

    A shallow embedding of [pipeline.py] and of the queue of [bot.py].

    Conventions of the embedding.
    - A Python [str] is a list of characters; a character is a code point
      below 256 (type [ascii]), which covers ASCII and Latin-1.  The
      character classes ([str.isspace], the [re] classes, [str.lower]) are
      the ones CPython uses on that range.
    - A Python [float] is an IEEE 754 binary64 number, [spec_float] with
      precision 53 and maximal exponent 1024.
    - A Python [int] is a [Z].
    - A call that can raise returns a [pyres]; [try]/[except] is a match on
      it. *)

From Stdlib Require Import Ascii String ZArith Lia Bool Arith List.
From Stdlib Require Import Floats.SpecFloat.
From Stdlib Require Import Numbers.DecimalString.
Import ListNotations.

Set Implicit Arguments.

(* ================================================================== *)
(** * Python strings *)
(* ================================================================== *)

Module PyStr.

Definition str := list ascii.

(** String literals of the source are written [lit "..."]. *)
Definition lit (s : string) : str := list_ascii_of_string s.

Definition code (c : ascii) : N := N_of_ascii c.

Definition in_range (lo hi : N) (c : ascii) : bool :=
  (N.leb lo (code c) && N.leb (code c) hi)%bool.

Definition char_eqb (a b : ascii) : bool := Ascii.eqb a b.

(** The newline character. *)
Definition newline : ascii := "010"%char.

(** [str.isspace] on one character, also the class [\s] of [re] for [str]
    patterns: U+0009..U+000D, U+001C..U+001F, U+0020, U+0085, U+00A0. *)
Definition is_space (c : ascii) : bool :=
  (in_range 9 13 c || in_range 28 32 c
   || N.eqb (code c) 133 || N.eqb (code c) 160)%bool.

(** The class [\d] of [re]: the decimal digits. *)
Definition is_digit (c : ascii) : bool := in_range 48 57 c.

(** The class [[a-zA-Z]]. *)
Definition is_alpha (c : ascii) : bool :=
  (in_range 65 90 c || in_range 97 122 c)%bool.

(** [str.lower] on one character: A-Z, and the Latin-1 capitals
    U+00C0..U+00DE except the multiplication sign U+00D7. *)
Definition lower_char (c : ascii) : ascii :=
  if (in_range 65 90 c || in_range 192 214 c || in_range 216 222 c)%bool
  then ascii_of_N (code c + 32) else c.

Definition lower (s : str) : str := map lower_char s.

Fixpoint str_eqb (a b : str) : bool :=
  match a, b with
  | [], [] => true
  | x :: a', y :: b' => (char_eqb x y && str_eqb a' b')%bool
  | _, _ => false
  end.

Definition is_empty (s : str) : bool :=
  match s with [] => true | _ :: _ => false end.

(** [s.lstrip()], [s.rstrip()] and [s.strip()]. *)
Fixpoint lstrip (s : str) : str :=
  match s with
  | c :: s' => if is_space c then lstrip s' else s
  | [] => []
  end.

Fixpoint rstrip (s : str) : str :=
  match s with
  | c :: s' =>
      let r := rstrip s' in
      if (is_space c && is_empty r)%bool then [] else c :: r
  | [] => []
  end.

Definition strip (s : str) : str := rstrip (lstrip s).

(** [s.startswith(p)], returning what follows the prefix. *)
Fixpoint strip_prefix (p s : str) : option str :=
  match p, s with
  | [], _ => Some s
  | a :: p', b :: s' => if char_eqb a b then strip_prefix p' s' else None
  | _ :: _, [] => None
  end.

(** The first occurrence of [sep] in [s]: what is before and after it
    ([s.partition(sep)] when it is found). *)
Fixpoint find_sep (sep s : str) : option (str * str) :=
  match strip_prefix sep s with
  | Some r => Some ([], r)
  | None =>
      match s with
      | [] => None
      | c :: s' =>
          match find_sep sep s' with
          | Some (b, a) => Some (c :: b, a)
          | None => None
          end
      end
  end.

(** [sep in s]. *)
Definition contains (sep s : str) : bool :=
  match find_sep sep s with Some _ => true | None => false end.

(** [s.split(sep, 1)], for a non-empty [sep]. *)
Definition split1 (sep s : str) : list str :=
  match find_sep sep s with
  | Some (b, a) => [b; a]
  | None => [s]
  end.

(** [s.split(sep)], for a non-empty [sep]: the occurrences are found from
    left to right and do not overlap.  What is left after an occurrence is
    shorter than [s], so [length s] rounds are enough. *)
Fixpoint split_rounds (n : nat) (sep s : str) : list str :=
  match n with
  | O => [s]
  | S n' =>
      match find_sep sep s with
      | Some (b, a) => b :: split_rounds n' sep a
      | None => [s]
      end
  end.

Definition split (sep s : str) : list str := split_rounds (length s) sep s.

(** [s.startswith(p)] and [s.endswith(p)]. *)
Definition starts_with (p s : str) : bool :=
  match strip_prefix p s with Some _ => true | None => false end.

Definition ends_with (p s : str) : bool := starts_with (rev p) (rev s).

(** [s.rsplit(sep, 1)[0]]: what is before the last occurrence of [sep],
    the whole of [s] when there is none. *)
Definition rsplit1_head (sep s : str) : str :=
  match find_sep (rev sep) (rev s) with
  | Some (_, a) => rev a
  | None => s
  end.

(** [str(z)] for an int. *)
Definition str_of_int (z : Z) : str :=
  list_ascii_of_string (NilZero.string_of_int (Z.to_int z)).

(** [int(s)] for a string of decimal digits. *)
Definition digit_val (c : ascii) : Z := (Z.of_N (code c) - 48)%Z.

Definition int_of_digits (s : str) : Z :=
  fold_left (fun acc c => (10 * acc + digit_val c)%Z) s 0%Z.

End PyStr.

(* ================================================================== *)
(** * The fragment of [re] the module uses *)
(* ================================================================== *)

Module Regex.
Import PyStr.

(** The patterns of [pipeline.py] are built from character classes, greedy
    repetitions of a class ([+] and [*]), concatenation, a greedy optional
    group [(?:...)?], capture groups, [^] and [$]. *)
Inductive re : Type :=
| Cls (p : ascii -> bool)
| Rep0 (p : ascii -> bool)
| Rep1 (p : ascii -> bool)
| Cat (r1 r2 : re)
| Opt (r : re)
| Grp (i : nat) (r : re)
| Bol
| Eol.

Infix "+++" := Cat (at level 60, right associativity).

(** A state of the matcher: the offset reached, what is left of the subject
    and the groups captured so far. *)
Record mstate : Type :=
  { pos : nat; rest : str; caps : list (nat * str) }.

(** All the ways a greedy [p*] can consume a prefix, the longest first. *)
Fixpoint rep0 (p : ascii -> bool) (n : nat) (s : str)
  (cs : list (nat * str)) : list mstate :=
  match s with
  | c :: s' =>
      (if p c then rep0 p (S n) s' cs else [])
        ++ [{| pos := n; rest := s; caps := cs |}]
  | [] => [{| pos := n; rest := []; caps := cs |}]
  end.

(** [run r st] lists the states in which [r] can end from [st], in the
    order the backtracking matcher of [re] tries them. *)
Fixpoint run (r : re) (st : mstate) : list mstate :=
  match r with
  | Cls p =>
      match rest st with
      | c :: s' =>
          if p c then [{| pos := S (pos st); rest := s'; caps := caps st |}]
          else []
      | [] => []
      end
  | Rep0 p => rep0 p (pos st) (rest st) (caps st)
  | Rep1 p =>
      match rest st with
      | c :: s' => if p c then rep0 p (S (pos st)) s' (caps st) else []
      | [] => []
      end
  | Cat r1 r2 => flat_map (run r2) (run r1 st)
  | Opt r' => run r' st ++ [st]
  | Grp i r' =>
      map (fun st' =>
             {| pos := pos st'; rest := rest st';
                caps := (i, firstn (pos st' - pos st) (rest st)) :: caps st' |})
          (run r' st)
  | Bol => if Nat.eqb (pos st) 0 then [st] else []
  | Eol =>
      match rest st with
      | [] => [st]
      | [c] => if char_eqb c newline then [st] else []
      | _ => []
      end
  end.

Definition run_at (r : re) (n : nat) (s : str) : option mstate :=
  hd_error (run r {| pos := n; rest := s; caps := [] |}).

(** [re.match(r, s)]: the first way to match at offset 0. *)
Definition re_match (r : re) (s : str) : option mstate := run_at r 0 s.

(** [re.search(r, s)]: the first offset at which [r] matches. *)
Fixpoint search_from (r : re) (n : nat) (s : str) : option mstate :=
  match run_at r n s with
  | Some st => Some st
  | None =>
      match s with
      | [] => None
      | _ :: s' => search_from r (S n) s'
      end
  end.

Definition re_search (r : re) (s : str) : option mstate := search_from r 0 s.

(** [m.group(i)], the empty string standing for a group that took no part
    in the match (every group of the patterns below takes part). *)
Fixpoint lookup (i : nat) (cs : list (nat * str)) : str :=
  match cs with
  | (j, v) :: cs' => if Nat.eqb i j then v else lookup i cs'
  | [] => []
  end.

Definition group (i : nat) (m : mstate) : str := lookup i (caps m).

End Regex.

(* ================================================================== *)
(** * Python floats *)
(* ================================================================== *)

Module PyFloat.
Import PyStr.
Local Open Scope Z_scope.

Definition prec : Z := 53.
Definition emax : Z := 1024.

Definition float := spec_float.

Definition fzero : float := S754_zero false.

Definition fmul : float -> float -> float := SFmul prec emax.
Definition fdiv : float -> float -> float := SFdiv prec emax.
Definition fltb : float -> float -> bool := SFltb.

Definition is_zero (x : float) : bool :=
  match x with S754_zero _ => true | _ => false end.

Definition is_nan (x : float) : bool :=
  match x with S754_nan => true | _ => false end.

(** The binary64 number nearest to the rational [p/q], ties to even, with
    the sign [neg]; an infinity when [p/q] is beyond the largest float. *)
Definition round_ratio (neg : bool) (p q : positive) : float :=
  let '(mz, ez, lz) := SFdiv_core_binary prec emax (Zpos p) 0 (Zpos q) 0 in
  binary_round_aux prec emax neg mz ez lz.

(** The float nearest to [n * 10^e], for [0 <= n]: what [float] makes of a
    decimal numeral with digits [n] and decimal exponent [e]. *)
Definition of_decimal (neg : bool) (n e : Z) : float :=
  match n with
  | Zpos p =>
      match e with
      | Zneg k => round_ratio neg p (Pos.pow 10 k)
      | _ => round_ratio neg (p * Z.to_pos (10 ^ e)) 1
      end
  | _ => S754_zero neg
  end.

(** ** [float(s)] *)

(** The white space [float] skips at both ends: the ASCII white space, and
    U+0085 and U+00A0. *)
Definition is_float_space (c : ascii) : bool :=
  (in_range 9 13 c || N.eqb (code c) 32
   || N.eqb (code c) 133 || N.eqb (code c) 160)%bool.

Fixpoint lskip (s : str) : str :=
  match s with
  | c :: s' => if is_float_space c then lskip s' else s
  | [] => []
  end.

Fixpoint rskip (s : str) : str :=
  match s with
  | c :: s' =>
      let r := rskip s' in
      if (is_float_space c && is_empty r)%bool then [] else c :: r
  | [] => []
  end.

(** [digit (["_"] digit)*] after its first digit: the digits read and what
    is left. *)
Fixpoint digitpart_tail (s : str) : str * str :=
  match s with
  | c :: s' =>
      if is_digit c then
        let (d, r) := digitpart_tail s' in (c :: d, r)
      else if char_eqb c "_"%char then
        match s' with
        | c2 :: _ => if is_digit c2 then digitpart_tail s' else ([], s)
        | [] => ([], s)
        end
      else ([], s)
  | [] => ([], [])
  end.

Definition digitpart (s : str) : option (str * str) :=
  match s with
  | c :: s' =>
      if is_digit c then
        let (d, r) := digitpart_tail s' in Some (c :: d, r)
      else None
  | [] => None
  end.

(** [[digitpart] "." digitpart | digitpart ["."]]: the digits before and
    after the point, and what is left. *)
Definition number (s : str) : option (str * str * str) :=
  match digitpart s with
  | Some (ip, r) =>
      match r with
      | c :: r' =>
          if char_eqb c "."%char then
            match digitpart r' with
            | Some (fp, r'') => Some (ip, fp, r'')
            | None => Some (ip, [], r')
            end
          else Some (ip, [], r)
      | [] => Some (ip, [], [])
      end
  | None =>
      match s with
      | c :: r' =>
          if char_eqb c "."%char then
            match digitpart r' with
            | Some (fp, r'') => Some ([], fp, r'')
            | None => None
            end
          else None
      | [] => None
      end
  end.

(** [("e" | "E") [sign] digitpart] up to the end of the string, or nothing:
    the decimal exponent. *)
Definition exponent (s : str) : option Z :=
  match s with
  | [] => Some 0
  | c :: r =>
      if (char_eqb c "e"%char || char_eqb c "E"%char)%bool then
        let '(neg, r') :=
          match r with
          | c2 :: r2 =>
              if char_eqb c2 "-"%char then (true, r2)
              else if char_eqb c2 "+"%char then (false, r2)
              else (false, r)
          | [] => (false, r)
          end in
        match digitpart r' with
        | Some (ds, []) =>
            Some (if neg then - int_of_digits ds else int_of_digits ds)
        | _ => None
        end
      else None
  end.

Definition floatnumber (neg : bool) (s : str) : option float :=
  match number s with
  | Some (ip, fp, r) =>
      match exponent r with
      | Some e =>
          Some (of_decimal neg (int_of_digits (ip ++ fp))
                  (e - Z.of_nat (length fp)))
      | None => None
      end
  | None => None
  end.

(** [float(s)]: [None] stands for [ValueError]. *)
Definition py_float (s : str) : option float :=
  let t := rskip (lskip s) in
  let '(neg, u) :=
    match t with
    | c :: t' =>
        if char_eqb c "-"%char then (true, t')
        else if char_eqb c "+"%char then (false, t')
        else (false, t)
    | [] => (false, t)
    end in
  let w := lower u in
  if (str_eqb w (lit "inf") || str_eqb w (lit "infinity"))%bool
  then Some (S754_infinity neg)
  else if str_eqb w (lit "nan") then Some S754_nan
  else floatnumber neg u.

(** ** [a / b] on ints *)

(** The quotient of two ints is the float nearest to the exact quotient;
    [None] stands for the exception raised ([ZeroDivisionError] when
    [b = 0], [OverflowError] when the quotient is beyond the floats). *)
Definition int_truediv (a b : Z) : option float :=
  if b =? 0 then None
  else
    let neg := xorb (a <? 0) (b <? 0) in
    let g := Z.gcd a b in
    match Z.abs a / g, Z.abs b / g with
    | Zpos p, Zpos q =>
        match round_ratio neg p q with
        | S754_infinity _ => None
        | x => Some x
        end
    | _, _ => Some (S754_zero neg)
    end.

(** ** [round(x, 2)] *)

(** The integer nearest to [n / d], ties to even, for [0 <= n] and
    [0 < d]. *)
Definition round_half_even (n d : Z) : Z :=
  let q := n / d in
  let r := n mod d in
  match 2 * r ?= d with
  | Lt => q
  | Gt => q + 1
  | Eq => if Z.even q then q else q + 1
  end.

(** [round(x, 2)] rounds the exact value of [x] to two decimals, ties to
    even, and returns the float nearest to that decimal; infinities and NaN
    round to themselves. *)
Definition round2 (x : float) : float :=
  match x with
  | S754_finite s m e =>
      let h :=
        match e with
        | Zneg k => round_half_even (100 * Zpos m) (Zpos (Pos.pow 2 k))
        | _ => 100 * Zpos m * 2 ^ e
        end in
      match h with
      | Zpos p => round_ratio s p 100
      | _ => S754_zero s
      end
  | _ => x
  end.

End PyFloat.

(* ================================================================== *)
(** * Format conversion ([pipeline.py]) *)
(* ================================================================== *)

Module Pipeline.
Import PyStr Regex PyFloat.

(** ** Numbers *)

(** The amounts of the module are the int literal [0] or a float. *)
Inductive pynum : Type :=
| PyInt0
| PyFloat (f : float).

(** The value of a number in a comparison or a product: the int [0] is
    the float [0.0] there. *)
Definition num_val (x : pynum) : float :=
  match x with PyInt0 => fzero | PyFloat f => f end.

(** [a > b]. *)
Definition py_gt (a b : pynum) : bool := fltb (num_val b) (num_val a).

(** [a >= 0]; false for NaN as every comparison with NaN is. *)
Definition py_ge0 (a : pynum) : bool := SFleb fzero (num_val a).

(** [max(iterable)]: the first item, replaced by each later item that
    compares greater; [None] stands for the [ValueError] on no item. *)
Definition py_max (l : list pynum) : option pynum :=
  match l with
  | [] => None
  | x :: l' => Some (fold_left (fun best y => if py_gt y best then y else best) l' x)
  end.

Fixpoint all_some {A : Type} (l : list (option A)) : option (list A) :=
  match l with
  | [] => Some []
  | Some x :: l' =>
      match all_some l' with Some xs => Some (x :: xs) | None => None end
  | None :: _ => None
  end.

(** ** [_parse_amount] *)

(** [_parse_amount] calls itself on the parts of a range.  [d] bounds the
    depth of the calls and [None] stands for [RecursionError]; the range
    branch catches it, with [ValueError], and returns [0]. *)
Fixpoint parse_amount_depth (d : nat) (s : str) : option pynum :=
  match d with
  | O => None
  | S d' =>
      let s := strip s in
      if contains (lit "-") s then
        let parts := split (lit "-") s in
        match all_some (map (parse_amount_depth d') parts) with
        | Some vs =>
            match py_max vs with
            | Some v => Some v
            | None => Some PyInt0
            end
        | None => Some PyInt0
        end
      else if contains (lit "/") s then
        match split (lit "/") s with
        | [num; den] =>
            match py_float (strip num), py_float (strip den) with
            | Some x, Some y =>
                if is_zero y then Some PyInt0 else Some (PyFloat (fdiv x y))
            | _, _ => Some PyInt0
            end
        | _ => Some PyInt0
        end
      else
        match py_float s with
        | Some x => Some (PyFloat x)
        | None => Some PyInt0
        end
  end.

(** A part of a range holds no ["-"], so the calls nest twice at most
    ([parse_amount_depth_stable] below). *)
Definition _parse_amount (s : str) : pynum :=
  match parse_amount_depth 2 s with
  | Some v => v
  | None => PyInt0
  end.

(** ** [parse_iso_duration_minutes] *)

Definition is_char (c : ascii) : ascii -> bool := char_eqb c.

(** [(\d+)H] and [(\d+)M]. *)
Definition hours_re : re := Grp 1 (Rep1 is_digit) +++ Cls (is_char "H").
Definition mins_re : re := Grp 1 (Rep1 is_digit) +++ Cls (is_char "M").

Definition parse_iso_duration_minutes (iso : str) : Z :=
  if is_empty iso then 0%Z
  else
    let hours := re_search hours_re iso in
    let mins := re_search mins_re iso in
    let total := 0%Z in
    let total :=
      match hours with
      | Some m => (total + int_of_digits (group 1 m) * 60)%Z
      | None => total
      end in
    let total :=
      match mins with
      | Some m => (total + int_of_digits (group 1 m))%Z
      | None => total
      end in
    total.

(** ** [parse_ingredient_string] *)

Record ingredient : Type :=
  { i_amount : pynum;
    i_unit : option str;
    i_food : str;
    i_note : str;
    i_no_amount : bool }.

Definition known_units : list str :=
  map lit
    [ "g"; "kg"; "mg"; "ml"; "l"; "dl"; "cl";
      "tsp"; "tbsp"; "cup"; "cups"; "oz"; "lb"; "lbs";
      "clove"; "cloves"; "piece"; "pieces"; "pinch";
      "bunch"; "can"; "cans"; "slice"; "slices";
      "sprig"; "sprigs"; "head"; "heads"; "stalk"; "stalks";
      "handful"; "dash"; "drop"; "drops"; "packet"; "packets";
      "sheet"; "sheets"; "stick"; "sticks"; "whole";
      "grams"; "gram" ]%string.

Definition is_known_unit (u : str) : bool := existsb (str_eqb u) known_units.

Definition dot_or_slash (c : ascii) : bool :=
  (char_eqb c "." || char_eqb c "/")%bool.

(** [.], any character but a newline. *)
Definition not_newline (c : ascii) : bool := negb (char_eqb c newline).

(** [[\d]+(?:[./][\d]+)?] *)
Definition number_re : re :=
  Rep1 is_digit +++ Opt (Cls dot_or_slash +++ Rep1 is_digit).

(** [[\d]+(?:[./][\d]+)?(?:\s*-\s*[\d]+(?:[./][\d]+)?)?] *)
Definition amount_re : re :=
  number_re +++ Opt (Rep0 is_space +++ Cls (is_char "-") +++ Rep0 is_space +++ number_re).

(** [^(amount)\s+([a-zA-Z]+(?:\s[a-zA-Z]+)?)\s+(.+)$] *)
Definition unit_food_re : re :=
  Bol +++ Grp 1 amount_re +++ Rep1 is_space
    +++ Grp 2 (Rep1 is_alpha +++ Opt (Cls is_space +++ Rep1 is_alpha))
    +++ Rep1 is_space +++ Grp 3 (Rep1 not_newline) +++ Eol.

(** [^(amount)\s+(.+)$] *)
Definition food_re : re :=
  Bol +++ Grp 1 amount_re +++ Rep1 is_space +++ Grp 2 (Rep1 not_newline) +++ Eol.

Definition parse_ingredient_string (s : str) : ingredient :=
  let s := strip s in
  let '(s, note) :=
    if contains (lit ", ") s then
      match split1 (lit ", ") s with
      | [p0; p1] => (p0, p1)
      | _ => (s, [])
      end
    else (s, []) in
  match re_match unit_food_re s with
  | Some m =>
      let amount_str := group 1 m in
      let unit := group 2 m in
      let food := group 3 m in
      let amount := _parse_amount amount_str in
      if is_known_unit (lower unit) then
        {| i_amount := amount; i_unit := Some unit; i_food := strip food;
           i_note := note; i_no_amount := false |}
      else
        {| i_amount := amount; i_unit := None;
           i_food := strip (unit ++ lit " " ++ food);
           i_note := note; i_no_amount := false |}
  | None =>
      match re_match food_re s with
      | Some m2 =>
          {| i_amount := _parse_amount (group 1 m2); i_unit := None;
             i_food := strip (group 2 m2); i_note := note;
             i_no_amount := false |}
      | None =>
          {| i_amount := PyInt0; i_unit := None; i_food := s;
             i_note := note; i_no_amount := true |}
      end
  end.

(** ** [_split_instruction_sections] *)

Definition _split_instruction_sections (text : str) : list (str * str) :=
  if is_empty text then []
  else
    let parts := split (lit "## ") text in
    let sections :=
      fold_left
        (fun sections part =>
           let part := strip part in
           if is_empty part then sections
           else
             let lines := split1 [newline] part in
             let header := strip (hd [] lines) in
             let body :=
               match lines with
               | _ :: l1 :: _ => strip l1
               | _ => []
               end in
             sections ++ [(header, body)])
        parts [] in
    match sections with
    | [] =>
        if negb (is_empty (strip text))
        then [(lit "Instructions", strip text)]
        else sections
    | _ :: _ => sections
    end.

(** ** [jsonld_to_tandoor] *)

(** The recipe document the extractor returns, a JSON object read with
    [dict.get]: a field is [None] when its key is absent. *)
Record how_to_step : Type := { hs_text : option str }.

(** The ["author"] value: an object with an optional ["name"], or another
    value, of which [str(author)] is taken. *)
Inductive author_json : Type :=
| AuthorDict (name : option str)
| AuthorOther (as_str : str).

Record recipe : Type :=
  { r_name : option str;
    r_description : option str;
    r_author : option author_json;
    r_url : option str;
    r_recipeCategory : option str;
    r_recipeCuisine : option str;
    (** [str(recipeYield)] *)
    r_recipeYield : option str;
    r_prepTime : option str;
    r_cookTime : option str;
    r_recipeIngredient : option (list str);
    r_recipeInstructions : option (list how_to_step);
    (** an item is [None] when it is not a [str] *)
    r_keywords : option (list (option str)) }.

Record step : Type :=
  { s_name : str;
    s_instruction : str;
    s_ingredients : list ingredient;
    s_show_ingredients_table : bool }.

Record tandoor_recipe : Type :=
  { t_name : str;
    t_description : str;
    t_working_time : Z;
    t_waiting_time : Z;
    t_servings : Z;
    t_servings_text : str;
    t_source_url : str;
    t_internal : bool;
    t_keywords : list str;
    t_steps : list step }.

(** [d.get(key, default)]. *)
Definition get_or {A : Type} (default : A) (o : option A) : A :=
  match o with Some v => v | None => default end.

(** The truth value of an optional int: [None] and [0] are false. *)
Definition truthy (o : option Z) : bool :=
  match o with Some z => negb (Z.eqb z 0) | None => false end.

(** [(\d+)] *)
Definition digits_re : re := Grp 1 (Rep1 is_digit).

Definition original_servings_of (recipe : recipe) : Z :=
  let servings_raw := get_or (lit "4") (r_recipeYield recipe) in
  match re_search digits_re servings_raw with
  | Some m => int_of_digits (group 1 m)
  | None => 4%Z
  end.

(** [ing["amount"] * scale]. *)
Definition mul_scale (a : pynum) (scale : float) : float :=
  fmul (num_val a) scale.

(** The body of the rescaling loop. *)
Definition rescale (scale : float) (ing : ingredient) : ingredient :=
  if py_gt (i_amount ing) PyInt0 then
    {| i_amount := PyFloat (round2 (mul_scale (i_amount ing) scale));
       i_unit := i_unit ing; i_food := i_food ing; i_note := i_note ing;
       i_no_amount := i_no_amount ing |}
  else ing.

(** The guard of the rescaling. *)
Definition must_rescale (servings_override : option Z) (original_servings : Z) : bool :=
  (truthy servings_override && Z.ltb 0 original_servings
   && negb (Z.eqb (get_or 0%Z servings_override) original_servings))%bool.

Definition keywords_of (recipe : recipe) : list str :=
  let keywords :=
    fold_left
      (fun keywords kw =>
         match kw with
         | Some k => if negb (is_empty (strip k)) then keywords ++ [strip k] else keywords
         | None => keywords
         end)
      (get_or [] (r_keywords recipe)) [] in
  fold_left
    (fun keywords val =>
       if (negb (is_empty val) && negb (is_empty (strip val)))%bool
       then keywords ++ [strip val] else keywords)
    [get_or [] (r_recipeCuisine recipe); get_or [] (r_recipeCategory recipe)]
    keywords.

Definition description_of (recipe : recipe) : str :=
  let desc := get_or [] (r_description recipe) in
  let author_name :=
    match get_or (AuthorDict None) (r_author recipe) with
    | AuthorDict name => get_or [] name
    | AuthorOther s => s
    end in
  if (negb (is_empty author_name) && negb (contains author_name desc))%bool then
    if negb (is_empty desc)
    then lit "By " ++ author_name ++ lit ". " ++ desc
    else lit "By " ++ author_name
  else desc.

Definition section_step (hb : str * str) : step :=
  {| s_name := fst hb; s_instruction := snd hb; s_ingredients := [];
     s_show_ingredients_table := false |}.

(** The text of the first of [recipeInstructions], if any. *)
Definition instruction_text_of (recipe : recipe) : str :=
  let steps_ld := get_or [] (r_recipeInstructions recipe) in
  match steps_ld with
  | s0 :: _ => get_or [] (hs_text s0)
  | [] => []
  end.

(** [None] stands for the [OverflowError] of [servings_override /
    original_servings]; the guard excludes [ZeroDivisionError]. *)
Definition jsonld_to_tandoor (recipe : recipe) (servings_override : option Z)
  : option tandoor_recipe :=
  let ingredients :=
    map parse_ingredient_string (get_or [] (r_recipeIngredient recipe)) in
  let instruction_text := instruction_text_of recipe in
  let prep := parse_iso_duration_minutes (get_or [] (r_prepTime recipe)) in
  let cook := parse_iso_duration_minutes (get_or [] (r_cookTime recipe)) in
  let original_servings := original_servings_of recipe in
  let target_servings :=
    if truthy servings_override then get_or 0%Z servings_override
    else original_servings in
  let rescaled :=
    if must_rescale servings_override original_servings then
      match int_truediv (get_or 0%Z servings_override) original_servings with
      | Some scale => Some (map (rescale scale) ingredients)
      | None => None
      end
    else Some ingredients in
  match rescaled with
  | None => None
  | Some ingredients =>
      Some
        {| t_name := get_or (lit "Untitled Recipe") (r_name recipe);
           t_description := description_of recipe;
           t_working_time := prep;
           t_waiting_time := cook;
           t_servings := target_servings;
           t_servings_text := lit "servings";
           t_source_url := get_or [] (r_url recipe);
           t_internal := true;
           t_keywords := keywords_of recipe;
           t_steps :=
             {| s_name := []; s_instruction := []; s_ingredients := ingredients;
                s_show_ingredients_table := true |}
             :: map section_step (_split_instruction_sections instruction_text) |}
  end.

End Pipeline.

(* ================================================================== *)
(** * Exceptions *)
(* ================================================================== *)

Module PyExn.
Import PyStr.

(** The exceptions that reach a handler of the module: its own
    [PipelineError], and any other subclass of [Exception]; both carry
    [str(e)]. *)
Inductive exn : Type :=
| PipelineError (msg : str)
| OtherException (msg : str).

Inductive pyres (A : Type) : Type :=
| Ret (a : A)
| Raise (e : exn).

Arguments Ret {A} a.
Arguments Raise {A} e.

Definition bind {A B : Type} (c : pyres A) (k : A -> pyres B) : pyres B :=
  match c with
  | Ret a => k a
  | Raise e => Raise e
  end.

(** What code outside the module does when it is called: it returns, or
    raises an exception of its own, which is not a [PipelineError]
    ([pipeline.py] alone raises that class). *)
Inductive outcome (A : Type) : Type :=
| Returns (a : A)
| Throws (msg : str).

Arguments Returns {A} a.
Arguments Throws {A} msg.

Definition call {A : Type} (o : outcome A) : pyres A :=
  match o with
  | Returns a => Ret a
  | Throws m => Raise (OtherException m)
  end.

End PyExn.

Declare Scope py_scope.
Delimit Scope py_scope with py.
Notation "x <- c1 ;; c2" := (PyExn.bind c1 (fun x => c2))
  (at level 61, c1 at next level, right associativity) : py_scope.
Notation "' pat <- c1 ;; c2" := (PyExn.bind c1 (fun x => match x with pat => c2 end))
  (at level 61, pat pattern, c1 at next level, right associativity) : py_scope.

(* ================================================================== *)
(** * Duplicate detection ([pipeline.py]) *)
(* ================================================================== *)

Module Duplicate.
Import PyStr PyExn.
Local Open Scope py_scope.

(** The ["name"] of a search result: absent, a string, or a value that is
    not a string (on which [.strip()] raises). *)
Inductive name_json : Type :=
| NameAbsent
| NameStr (s : str)
| NameOther.

(** One item of ["results"], with [r.get("id")]. *)
Record search_hit : Type := { h_name : name_json; h_id : option Z }.

(** The response to the search: its status code, and
    [resp.json().get("results", [])], which raises when the body is not a
    JSON object. *)
Record search_response : Type :=
  { sr_status : Z; sr_results : outcome (list search_hit) }.

(** The loop over the results: [Ret (Some id)] when it returns [id],
    [Ret None] when it ends. *)
Fixpoint scan_results (recipe_name : str) (results : list search_hit)
  : pyres (option (option Z)) :=
  match results with
  | [] => Ret None
  | r :: rs =>
      name <- match h_name r with
              | NameAbsent => Ret []
              | NameStr s => Ret s
              | NameOther => Raise (OtherException (lit "object has no attribute 'strip'"))
              end ;;
      if str_eqb (lower (strip name)) (lower (strip recipe_name))
      then Ret (Some (h_id r))
      else scan_results recipe_name rs
  end.

(** [requests_get] is the answer of the publish target to the query (at
    most [page_size = 5] results), or the failure of the transport. *)
Definition check_duplicate (recipe_name : str)
  (requests_get : str -> outcome search_response) : option Z :=
  let attempt :=
    resp <- call (requests_get recipe_name) ;;
    if Z.eqb (sr_status resp) 200 then
      results <- call (sr_results resp) ;;
      scan_results recipe_name results
    else Ret None in
  match attempt with
  | Ret (Some id) => id
  | Ret None => None
  | Raise _ => None
  end.

End Duplicate.

(* ================================================================== *)
(** * The pipeline orchestrator ([pipeline.py]) *)
(* ================================================================== *)

Module Orchestrator.
Import PyStr PyExn Pipeline.
Local Open Scope py_scope.

Record PipelineConfig : Type :=
  { tandoor_url : str;
    tandoor_api_key : str;
    whisper_model : str;
    language : str }.

(** What [json.loads] returns: a JSON object, read as a recipe, or another
    JSON value. *)
Inductive json_doc : Type :=
| JObject (r : recipe)
| JOther.

Record PipelineResult : Type :=
  { success : bool;
    recipe_name : str;
    recipe_url : str;
    thumbnail_path : str;
    error_message : str;
    recipe_data : option json_doc }.

(** The observers of a run; a field is [None] when the callback is not
    set, and holds what the call does otherwise. *)
Record PipelineCallbacks : Type :=
  { on_downloading : option (outcome unit);
    on_transcribing : option (outcome unit);
    on_extracting : option (outcome unit);
    on_publishing : option (outcome unit);
    on_complete : option (PipelineResult -> outcome unit);
    on_error : option (str -> outcome unit) }.

Record completed_process : Type :=
  { returncode : Z; stdout : str; stderr : str }.

Inductive loads_result : Type :=
| Loaded (d : json_doc)
| JSONDecodeError (msg : str)
| LoadsThrows (msg : str).

(** The response to [POST /api/recipe/]: the status, [str(resp.json())],
    [resp.text] and [resp.json().get("id")]. *)
Record post_response : Type :=
  { p_status : Z;
    p_json_str : outcome str;
    p_text : str;
    p_json_id : outcome (option Z) }.

(** The collaborators of one run: the answer of each call that leaves the
    module. *)
Record world : Type :=
  { w_mkdtemp : outcome str;
    w_cleanup : outcome unit;
    w_cached_transcript : outcome (option str);
    w_ytdlp : outcome completed_process;
    w_audio_file : outcome (option str);
    w_whisper_text : outcome str;
    w_save_cache : outcome unit;
    w_claude : outcome completed_process;
    w_json_loads : str -> loads_result;
    w_thumbnail : outcome (option str);
    w_copy2 : outcome str;
    w_post : tandoor_recipe -> outcome post_response }.

Definition run_callback (cb : option (outcome unit)) : pyres unit :=
  match cb with
  | Some o => call o
  | None => Ret tt
  end.

Definition download_audio (w : world) : pyres str :=
  result <- call (w_ytdlp w) ;;
  if negb (Z.eqb (returncode result) 0) then
    Raise (PipelineError (lit "yt-dlp failed: " ++ strip (stderr result)))
  else
    found <- call (w_audio_file w) ;;
    match found with
    | Some f => Ret f
    | None => Raise (PipelineError (lit "No audio file found after download."))
    end.

Definition transcribe_audio (w : world) : pyres str :=
  text <- call (w_whisper_text w) ;;
  Ret (strip text).

Definition fence : str := lit "```".

Definition extract_recipe (w : world) : pyres json_doc :=
  result <- call (w_claude w) ;;
  if negb (Z.eqb (returncode result) 0) then
    Raise (PipelineError (lit "Claude Code error: " ++ strip (stderr result)))
  else
    let response_text := strip (stdout result) in
    response_text <-
      (if starts_with fence response_text then
         match split1 [newline] response_text with
         | [_; after] => Ret after
         | _ => Raise (OtherException (lit "list index out of range"))
         end
       else Ret response_text) ;;
    let response_text :=
      if ends_with fence response_text
      then rsplit1_head fence response_text
      else response_text in
    let response_text := strip response_text in
    match w_json_loads w response_text with
    | Loaded recipe => Ret recipe
    | JSONDecodeError e =>
        Raise (PipelineError
                 (lit "Invalid JSON from Claude: " ++ e ++ [newline]
                    ++ lit "Raw: " ++ firstn 500 response_text))
    | LoadsThrows m => Raise (OtherException m)
    end.

(** [recipe.get(...)], which raises on a JSON value that is not an
    object. *)
Definition as_object (d : json_doc) : pyres recipe :=
  match d with
  | JObject r => Ret r
  | JOther => Raise (OtherException (lit "object has no attribute 'get'"))
  end.

Definition publish_to_tandoor (w : world) (config : PipelineConfig)
  (recipe : json_doc) (thumb_path : option str) (servings_override : option Z)
  : pyres (option Z * str) :=
  r <- as_object recipe ;;
  tandoor_recipe <-
    match jsonld_to_tandoor r servings_override with
    | Some t => Ret t
    | None => Raise (OtherException (lit "integer division result too large for a float"))
    end ;;
  resp <- call (w_post w tandoor_recipe) ;;
  if negb (Z.eqb (p_status resp) 200 || Z.eqb (p_status resp) 201) then
    let detail :=
      match p_json_str resp with
      | Returns d => d
      | Throws _ => firstn 300 (p_text resp)
      end in
    Raise (PipelineError
             (lit "Tandoor API error (HTTP " ++ str_of_int (p_status resp)
                ++ lit "): " ++ detail))
  else
    recipe_id <- call (p_json_id resp) ;;
    let recipe_url :=
      tandoor_url config ++ lit "/view/recipe/"
        ++ match recipe_id with Some i => str_of_int i | None => lit "None" end in
    Ret (recipe_id, recipe_url).

(** The body of the [try] of [process_video]. *)
Definition process_video_try (w : world) (config : PipelineConfig)
  (cb : PipelineCallbacks) (no_cache : bool) : pyres PipelineResult :=
  _ <- call (w_mkdtemp w) ;;
  let in_tmp_dir :=
    cached <- call (w_cached_transcript w) ;;
    transcript <-
      match cached with
      | Some (c :: t) =>
          if negb no_cache then Ret (c :: t)
          else
            _ <- run_callback (on_downloading cb) ;;
            _ <- download_audio w ;;
            _ <- run_callback (on_transcribing cb) ;;
            transcript <- transcribe_audio w ;;
            _ <- call (w_save_cache w) ;;
            Ret transcript
      | _ =>
          _ <- run_callback (on_downloading cb) ;;
          _ <- download_audio w ;;
          _ <- run_callback (on_transcribing cb) ;;
          transcript <- transcribe_audio w ;;
          _ <- call (w_save_cache w) ;;
          Ret transcript
      end ;;
    _ <- run_callback (on_extracting cb) ;;
    recipe <- extract_recipe w ;;
    r <- as_object recipe ;;
    thumb_path <- call (w_thumbnail w) ;;
    persistent_thumb <-
      match thumb_path with
      | Some (_ :: _) => p <- call (w_copy2 w) ;; Ret (Some p)
      | _ => Ret None
      end ;;
    _ <- run_callback (on_publishing cb) ;;
    ' (recipe_id, recipe_url) <-
      publish_to_tandoor w config recipe persistent_thumb None ;;
    let result :=
      {| success := true;
         recipe_name := get_or (lit "Unknown") (r_name r);
         recipe_url := recipe_url;
         thumbnail_path := get_or [] persistent_thumb;
         error_message := [];
         recipe_data := Some recipe |} in
    _ <- match on_complete cb with
         | Some f => call (f result)
         | None => Ret tt
         end ;;
    Ret result in
  match call (w_cleanup w) with
  | Ret _ => in_tmp_dir
  | Raise e => Raise e
  end.

Definition failure (error_msg : str) : PipelineResult :=
  {| success := false; recipe_name := []; recipe_url := [];
     thumbnail_path := []; error_message := error_msg;
     recipe_data := None |}.

Definition report_error (cb : PipelineCallbacks) (error_msg : str)
  : pyres PipelineResult :=
  _ <- match on_error cb with
       | Some f => call (f error_msg)
       | None => Ret tt
       end ;;
  Ret (failure error_msg).

Definition process_video (w : world) (config : PipelineConfig)
  (callbacks : option PipelineCallbacks) (no_cache : bool)
  : pyres PipelineResult :=
  let cb :=
    match callbacks with
    | Some c => c
    | None =>
        {| on_downloading := None; on_transcribing := None;
           on_extracting := None; on_publishing := None;
           on_complete := None; on_error := None |}
    end in
  match process_video_try w config cb no_cache with
  | Ret result => Ret result
  | Raise (PipelineError e) => report_error cb e
  | Raise (OtherException e) => report_error cb (lit "Unexpected error: " ++ e)
  end.

End Orchestrator.

(* ================================================================== *)
(** * The job queue ([bot.py]) *)
(* ================================================================== *)

Module Bot.
Import PyStr.

Definition MAX_QUEUE : nat := 3.

(** The state of the queue: the pending jobs of [_job_queue], oldest
    first, and the flag [_processing]. *)
Record bot_state : Type :=
  { _job_queue : list str;
    _processing : bool }.

(** [_job_queue.qsize()] and [_job_queue.full()]. *)
Definition qsize (st : bot_state) : nat := length (_job_queue st).

Definition full (st : bot_state) : bool := Nat.leb MAX_QUEUE (qsize st).

(** What [_enqueue] does, in order: a reply to the caller, or the [put]
    of the job. *)
Inductive event : Type :=
| Reply (text : str)
| Put (url : str).

Definition queue_full_text : str :=
  lit "Queue is full (max 3 pending). Try again later.".

Definition queued_text (position : nat) : str :=
  lit "Queued! Position: " ++ str_of_int (Z.of_nat position)
    ++ lit ". I'll get to it soon.".

(** [_enqueue], run without interleaving; a call of [reply_text]
    returns. *)
Definition _enqueue (url : str) (st : bot_state) : list event * bot_state :=
  if full st then ([Reply queue_full_text], st)
  else
    let qsize := qsize st in
    let replies :=
      if (Nat.ltb 0 qsize || _processing st)%bool
      then [Reply (queued_text (qsize + 1))]
      else [] in
    (replies ++ [Put url],
     {| _job_queue := _job_queue st ++ [url];
        _processing := _processing st |}).

(** The worker takes the oldest job and sets [_processing]; [None] when
    it has to wait. *)
Definition worker_get (st : bot_state) : option (str * bot_state) :=
  match _job_queue st with
  | url :: q => Some (url, {| _job_queue := q; _processing := true |})
  | [] => None
  end.

(** The [finally] of the worker. *)
Definition worker_done (st : bot_state) : bot_state :=
  {| _job_queue := _job_queue st; _processing := false |}.

Definition initial : bot_state := {| _job_queue := []; _processing := false |}.

End Bot.

(* ================================================================== *)
(** * Notions used to state the properties *)
(* ================================================================== *)

Module Props.
Import PyStr Regex PyFloat Pipeline.

Definition dash : ascii := "-"%char.
Definition slash : ascii := "/"%char.

(** A float that is not negative: its sign bit is clear, or it is NaN. *)
Definition sign_ok (f : float) : Prop :=
  match f with
  | S754_zero s | S754_infinity s | S754_finite s _ _ => s = false
  | S754_nan => True
  end.

(** A quantity that is not negative: it compares [>= 0], or it is NaN. *)
Definition never_negative (x : pynum) : Prop :=
  py_ge0 x = true \/ num_val x = S754_nan.

(** [_parse_amount] on a string that is stripped and holds no ["-"]. *)
Definition parse_flat (s : str) : pynum :=
  if contains [slash] s then
    match split [slash] s with
    | [num; den] =>
        match py_float (strip num), py_float (strip den) with
        | Some x, Some y => if is_zero y then PyInt0 else PyFloat (fdiv x y)
        | _, _ => PyInt0
        end
    | _ => PyInt0
    end
  else
    match py_float s with
    | Some x => PyFloat x
    | None => PyInt0
    end.

(** The ingredient strings of a recipe, parsed. *)
Definition parsed_ingredients (r : recipe) : list ingredient :=
  map parse_ingredient_string (get_or [] (r_recipeIngredient r)).

(** The ingredients of the first step of a converted recipe. *)
Definition ingredients_of (t : tandoor_recipe) : list ingredient :=
  match t_steps t with
  | s0 :: _ => s_ingredients s0
  | [] => []
  end.



(** A numeral beyond the largest float: [float] reads it as infinity. *)
Definition four_hundred_nines : str := repeat "9"%char 400.

(** A recipe that holds a yield and ingredient strings only. *)
Definition recipe_with (yield : string) (ingredients : list string) : recipe :=
  {| r_name := None; r_description := None; r_author := None; r_url := None;
     r_recipeCategory := None; r_recipeCuisine := None;
     r_recipeYield := Some (lit yield);
     r_prepTime := None; r_cookTime := None;
     r_recipeIngredient := Some (map lit ingredients);
     r_recipeInstructions := None; r_keywords := None |}.

(** ** Duplicate detection *)

(** A name as the comparison sees it: stripped and in lower case. *)
Definition norm_name (s : str) : str := lower (strip s).

(** The name the loop reads from a result; [None] when reading it raises. *)
Definition hit_name (r : Duplicate.search_hit) : option str :=
  match Duplicate.h_name r with
  | Duplicate.NameAbsent => Some []
  | Duplicate.NameStr s => Some s
  | Duplicate.NameOther => None
  end.

Definition same_name (recipe_name : str) (r : Duplicate.search_hit) : Prop :=
  exists s, hit_name r = Some s /\ norm_name s = norm_name recipe_name.

Definition other_name (recipe_name : str) (r : Duplicate.search_hit) : Prop :=
  exists s, hit_name r = Some s /\ norm_name s <> norm_name recipe_name.

(** ** The orchestrator *)



(** What a computation may do inside the [try]: return a value that
    satisfies [P], raise a [PipelineError] with a message, or raise
    another exception. *)
Definition behaves {A : Type} (P : A -> Prop) (c : PyExn.pyres A) : Prop :=
  match c with
  | PyExn.Ret a => P a
  | PyExn.Raise (PyExn.PipelineError m) => m <> []
  | PyExn.Raise (PyExn.OtherException _) => True
  end.

(** A run in which the downloader exits with status 1. *)
Definition world_without_network : Orchestrator.world :=
  {| Orchestrator.w_mkdtemp := PyExn.Returns (lit "/tmp/tmpdir");
     Orchestrator.w_cleanup := PyExn.Returns tt;
     Orchestrator.w_cached_transcript := PyExn.Returns None;
     Orchestrator.w_ytdlp :=
       PyExn.Returns
         {| Orchestrator.returncode := 1%Z; Orchestrator.stdout := [];
            Orchestrator.stderr := lit "ERROR: unable to download" |};
     Orchestrator.w_audio_file := PyExn.Returns None;
     Orchestrator.w_whisper_text := PyExn.Throws (lit "no model");
     Orchestrator.w_save_cache := PyExn.Returns tt;
     Orchestrator.w_claude := PyExn.Throws (lit "claude: not found");
     Orchestrator.w_json_loads := fun _ => Orchestrator.JSONDecodeError (lit "Expecting value");
     Orchestrator.w_thumbnail := PyExn.Returns None;
     Orchestrator.w_copy2 := PyExn.Throws (lit "no file");
     Orchestrator.w_post := fun _ => PyExn.Throws (lit "connection refused") |}.

Definition demo_config : Orchestrator.PipelineConfig :=
  {| Orchestrator.tandoor_url := lit "http://recipes.lan";
     Orchestrator.tandoor_api_key := lit "key";
     Orchestrator.whisper_model := lit "medium";
     Orchestrator.language := lit "en" |}.

End Props.

(* ================================================================== *)
(** * The transcript cache ([pipeline.py]) *)
(* ================================================================== *)

Module Cache.
Import PyStr Regex Pipeline.

(** The class [\w] of [re] for [str] patterns: the alphanumeric characters
    and the underscore. *)
Definition is_word (c : ascii) : bool :=
  (in_range 48 57 c || in_range 65 90 c || N.eqb (code c) 95
   || in_range 97 122 c || N.eqb (code c) 170 || in_range 178 179 c
   || N.eqb (code c) 181 || in_range 185 186 c || in_range 188 190 c
   || in_range 192 214 c || in_range 216 246 c || in_range 248 255 c)%bool.

(** The class [[\w-]]. *)
Definition is_word_or_dash (c : ascii) : bool :=
  (is_word c || char_eqb c "-")%bool.

(** The empty pattern. *)
Definition eps : re := Rep0 (fun _ => false).

(** A literal string as a pattern. *)
Fixpoint lit_re (s : str) : re :=
  match s with
  | [] => eps
  | [c] => Cls (is_char c)
  | c :: s' => Cls (is_char c) +++ lit_re s'
  end.

(** [p{n}] for a class [p]. *)
Fixpoint cls_times (n : nat) (p : ascii -> bool) : re :=
  match n with
  | O => eps
  | S O => Cls p
  | S n' => Cls p +++ cls_times n' p
  end.

(** [(?:a|b|c)X], searched: at each offset the alternatives are tried in
    their order, each followed by [X]. *)
Fixpoint first_alt (rs : list re) (n : nat) (s : str) : option mstate :=
  match rs with
  | [] => None
  | r :: rs' =>
      match run_at r n s with
      | Some st => Some st
      | None => first_alt rs' n s
      end
  end.

Fixpoint search_alt_from (rs : list re) (n : nat) (s : str) : option mstate :=
  match first_alt rs n s with
  | Some st => Some st
  | None =>
      match s with
      | [] => None
      | _ :: s' => search_alt_from rs (S n) s'
      end
  end.

(** [(?:v=|youtu\.be/|shorts/)([\w-]{11})] *)
Definition youtube_res : list re :=
  map (fun a => lit_re (lit a) +++ Grp 1 (cls_times 11 is_word_or_dash))
    ["v="; "youtu.be/"; "shorts/"]%string.

(** [instagram\.com/(?:reel|p)/([\w-]+)] *)
Definition instagram_res : list re :=
  map (fun a => lit_re (lit a) +++ Grp 1 (Rep1 is_word_or_dash))
    ["instagram.com/reel/"; "instagram.com/p/"]%string.

(** [tiktok\.com/.*/video/(\d+)] *)
Definition tiktok_re : re :=
  lit_re (lit "tiktok.com/") +++ Rep0 not_newline
    +++ lit_re (lit "/video/") +++ Grp 1 (Rep1 is_digit).

Definition _video_id (url : str) : option str :=
  match search_alt_from youtube_res 0 url with
  | Some m => Some (group 1 m)
  | None =>
      match search_alt_from instagram_res 0 url with
      | Some m => Some (lit "ig_" ++ group 1 m)
      | None =>
          match re_search tiktok_re url with
          | Some m => Some (lit "tt_" ++ group 1 m)
          | None => None
          end
      end
  end.

(** The files of the cache: the text stored under a path, if any. *)
Definition filesystem : Type := str -> option str.

(** [CACHE_DIR / f"{video_id}.transcript"], below the home directory. *)
Definition _cache_path (home video_id : str) : str :=
  home ++ lit "/.config/yt2tandoor/cache/" ++ video_id ++ lit ".transcript".

Definition carriage_return : ascii := "013"%char.

(** Reading a file in text mode turns ["\r\n"] and ["\r"] into ["\n"]. *)
Fixpoint universal_newlines (s : str) : str :=
  match s with
  | [] => []
  | c :: s' =>
      if char_eqb c carriage_return then
        newline ::
          match s' with
          | c2 :: s'' =>
              if char_eqb c2 newline then universal_newlines s''
              else universal_newlines s'
          | [] => []
          end
      else c :: universal_newlines s'
  end.

Definition load_cached_transcript (home url : str) (fs : filesystem)
  : option str :=
  match _video_id url with
  | Some (c :: v) =>
      match fs (_cache_path home (c :: v)) with
      | Some text => Some (universal_newlines text)
      | None => None
      end
  | _ => None
  end.

(** Writing in text mode stores the text as it is (the line separator of
    the system is ["\n"]). *)
Definition save_transcript_cache (home url transcript : str) (fs : filesystem)
  : filesystem :=
  match _video_id url with
  | Some (c :: v) =>
      fun path =>
        if str_eqb path (_cache_path home (c :: v)) then Some transcript
        else fs path
  | _ => fs
  end.

End Cache.

(* ================================================================== *)
(** * The fallback file and the preview ([pipeline.py], [recipe_from_video.py]) *)
(* ================================================================== *)

Module Cli.
Import PyStr Pipeline.

(** [str.isalnum] on one character. *)
Definition is_alnum (c : ascii) : bool :=
  (in_range 48 57 c || in_range 65 90 c
   || in_range 97 122 c || N.eqb (code c) 170 || in_range 178 179 c
   || N.eqb (code c) 181 || in_range 185 186 c || in_range 188 190 c
   || in_range 192 214 c || in_range 216 246 c || in_range 248 255 c)%bool.

(** [s.replace(a, b)] for two strings of one character. *)
Definition replace_char (a b : ascii) (s : str) : str :=
  map (fun c => if char_eqb c a then b else c) s.

(** The part of the name [_save_fallback] keeps. *)
Definition safe_name_of (name : str) : str :=
  let safe_name := replace_char " " "_" name in
  filter (fun c => (is_alnum c || contains [c] (lit "_-"))%bool) safe_name.

(** The path [_save_fallback] writes to. *)
Definition fallback_path (tandoor_recipe : tandoor_recipe) : str :=
  safe_name_of (t_name tandoor_recipe) ++ lit "_tandoor.json".

(** [body[:120] + "..." if len(body) > 120 else body] *)
Definition preview_text_of (body : str) : str :=
  if Nat.ltb 120 (length body) then firstn 120 body ++ lit "..." else body.

(** The steps [preview_recipe] prints for an instruction text: the header
    and the shortened body of each. *)
Definition preview_steps (text : str) : list (str * str) :=
  let sections := split (lit "## ") text in
  let sections :=
    map strip (filter (fun s => negb (is_empty (strip s))) sections) in
  map (fun section =>
         let lines := split1 [newline] section in
         let header := strip (hd [] lines) in
         let body :=
           match lines with
           | _ :: l1 :: _ => strip l1
           | _ => []
           end in
         (header, preview_text_of body))
      sections.

End Cli.

(* ================================================================== *)
(** * The queue over time and the status message ([bot.py]) *)
(* ================================================================== *)

Module Session.
Import PyStr Bot.

(** What happens to the queue: a caller submits a URL, the worker takes
    the oldest job, the worker is done with its job. *)
Inductive action : Type :=
| Submit (url : str)
| Take
| Finish.

(** The single worker takes a job between two jobs only, and is done with
    a job it has taken; [None] when the action cannot happen. *)
Definition act (a : action) (st : bot_state) : option bot_state :=
  match a with
  | Submit url => Some (snd (_enqueue url st))
  | Take =>
      if _processing st then None
      else
        match worker_get st with
        | Some (_, st') => Some st'
        | None => None
        end
  | Finish => if _processing st then Some (worker_done st) else None
  end.

(** A run of actions, with the jobs admitted and the jobs taken so far,
    each in its order. *)
Record history : Type :=
  { admitted : list str; taken : list str; now : bot_state }.

Definition record_action (a : action) (h : history) : option history :=
  match act a (now h) with
  | None => None
  | Some st' =>
      Some
        {| admitted :=
             match a with
             | Submit url => if full (now h) then admitted h else admitted h ++ [url]
             | _ => admitted h
             end;
           taken :=
             match a with
             | Take =>
                 match worker_get (now h) with
                 | Some (url, _) => taken h ++ [url]
                 | None => taken h
                 end
             | _ => taken h
             end;
           now := st' |}
  end.

Fixpoint play (actions : list action) (h : history) : option history :=
  match actions with
  | [] => Some h
  | a :: actions' =>
      match record_action a h with
      | Some h' => play actions' h'
      | None => None
      end
  end.

Definition start : history :=
  {| admitted := []; taken := []; now := initial |}.



End Session.

(* ================================================================== *)
(** * More notions used to state the properties *)
(* ================================================================== *)

Module MoreProps.
Import PyStr Regex PyFloat Pipeline Props.

(** A pattern that consumes characters of the class [P] only and captures
    nothing. *)
Inductive class_only (P : ascii -> Prop) : re -> Prop :=
| co_cls : forall p, (forall c, p c = true -> P c) -> class_only P (Cls p)
| co_rep0 : forall p, (forall c, p c = true -> P c) -> class_only P (Rep0 p)
| co_rep1 : forall p, (forall c, p c = true -> P c) -> class_only P (Rep1 p)
| co_cat : forall r1 r2, class_only P r1 -> class_only P r2 -> class_only P (Cat r1 r2)
| co_opt : forall r, class_only P r -> class_only P (Opt r).

(** A pattern whose groups capture characters of the class [P] only. *)
Inductive captures_only (P : ascii -> Prop) : re -> Prop :=
| cap_cls : forall p, captures_only P (Cls p)
| cap_rep0 : forall p, captures_only P (Rep0 p)
| cap_rep1 : forall p, captures_only P (Rep1 p)
| cap_bol : captures_only P Bol
| cap_eol : captures_only P Eol
| cap_cat : forall r1 r2,
    captures_only P r1 -> captures_only P r2 -> captures_only P (Cat r1 r2)
| cap_opt : forall r, captures_only P r -> captures_only P (Opt r)
| cap_grp : forall i r, class_only P r -> captures_only P (Grp i r).

(** Captured groups that hold characters of the class [P] only. *)
Definition caps_in (P : ascii -> Prop) (cs : list (nat * str)) : Prop :=
  Forall (fun iv => Forall P (snd iv)) cs.


(** A character that may stand in a file name: no separator, no dot. *)
Definition name_char (c : ascii) : Prop :=
  Cli.is_alnum c = true \/ c = "_"%char \/ c = "-"%char.

(** The header and the body the loop makes of a part. *)
Definition section_of (part : str) : str * str :=
  let lines := split1 [newline] part in
  (strip (hd [] lines),
   match lines with
   | _ :: l1 :: _ => strip l1
   | _ => []
   end).

(** The name of the author the description is checked for. *)
Definition author_name_of (r : recipe) : str :=
  match get_or (AuthorDict None) (r_author r) with
  | AuthorDict name => get_or [] name
  | AuthorOther s => s
  end.




(** A recipe that holds a yield only. *)
Definition recipe_yielding (yield : option str) : recipe :=
  {| r_name := None; r_description := None; r_author := None; r_url := None;
     r_recipeCategory := None; r_recipeCuisine := None;
     r_recipeYield := yield;
     r_prepTime := None; r_cookTime := None;
     r_recipeIngredient := None;
     r_recipeInstructions := None; r_keywords := None |}.

(** A run in which the cache holds a transcript is described by the
    collaborators used after the cache; the others are free. *)
Definition same_after_cache (w w' : Orchestrator.world) : Prop :=
  Orchestrator.w_mkdtemp w = Orchestrator.w_mkdtemp w'
  /\ Orchestrator.w_cleanup w = Orchestrator.w_cleanup w'
  /\ Orchestrator.w_cached_transcript w = Orchestrator.w_cached_transcript w'
  /\ Orchestrator.w_claude w = Orchestrator.w_claude w'
  /\ Orchestrator.w_json_loads w = Orchestrator.w_json_loads w'
  /\ Orchestrator.w_thumbnail w = Orchestrator.w_thumbnail w'
  /\ Orchestrator.w_copy2 w = Orchestrator.w_copy2 w'
  /\ Orchestrator.w_post w = Orchestrator.w_post w'.

Definition same_after_download (cb cb' : Orchestrator.PipelineCallbacks) : Prop :=
  Orchestrator.on_extracting cb = Orchestrator.on_extracting cb'
  /\ Orchestrator.on_publishing cb = Orchestrator.on_publishing cb'
  /\ Orchestrator.on_complete cb = Orchestrator.on_complete cb'
  /\ Orchestrator.on_error cb = Orchestrator.on_error cb'.

(** Collaborators of a run that ends well: the transcript is in the cache,
    the response is a recipe and Tandoor stores it under the id 7. *)
Definition world_that_publishes : Orchestrator.world :=
  {| Orchestrator.w_mkdtemp := PyExn.Returns (lit "/tmp/tmpdir");
     Orchestrator.w_cleanup := PyExn.Returns tt;
     Orchestrator.w_cached_transcript := PyExn.Returns (Some (lit "Boil the pasta."));
     Orchestrator.w_ytdlp :=
       PyExn.Returns
         {| Orchestrator.returncode := 0%Z; Orchestrator.stdout := [];
            Orchestrator.stderr := [] |};
     Orchestrator.w_audio_file := PyExn.Returns (Some (lit "/tmp/tmpdir/a.mp3"));
     Orchestrator.w_whisper_text := PyExn.Returns (lit " Boil the pasta. ");
     Orchestrator.w_save_cache := PyExn.Returns tt;
     Orchestrator.w_claude :=
       PyExn.Returns
         {| Orchestrator.returncode := 0%Z; Orchestrator.stdout := lit "{}";
            Orchestrator.stderr := [] |};
     Orchestrator.w_json_loads :=
       fun _ => Orchestrator.Loaded (Orchestrator.JObject (recipe_yielding None));
     Orchestrator.w_thumbnail := PyExn.Returns None;
     Orchestrator.w_copy2 := PyExn.Throws (lit "no file");
     Orchestrator.w_post :=
       fun _ =>
         PyExn.Returns
           {| Orchestrator.p_status := 201%Z;
              Orchestrator.p_json_str := PyExn.Returns (lit "{'id': 7}");
              Orchestrator.p_text := lit "{id: 7}";
              Orchestrator.p_json_id := PyExn.Returns (Some 7%Z) |} |}.

(** The same collaborators with no downloader and no transcriber. *)
Definition offline (w : Orchestrator.world) : Orchestrator.world :=
  {| Orchestrator.w_mkdtemp := Orchestrator.w_mkdtemp w;
     Orchestrator.w_cleanup := Orchestrator.w_cleanup w;
     Orchestrator.w_cached_transcript := Orchestrator.w_cached_transcript w;
     Orchestrator.w_ytdlp := PyExn.Throws (lit "yt-dlp: not found");
     Orchestrator.w_audio_file := PyExn.Throws (lit "no directory");
     Orchestrator.w_whisper_text := PyExn.Throws (lit "no model");
     Orchestrator.w_save_cache := PyExn.Throws (lit "read-only file system");
     Orchestrator.w_claude := Orchestrator.w_claude w;
     Orchestrator.w_json_loads := Orchestrator.w_json_loads w;
     Orchestrator.w_thumbnail := Orchestrator.w_thumbnail w;
     Orchestrator.w_copy2 := Orchestrator.w_copy2 w;
     Orchestrator.w_post := Orchestrator.w_post w |}.

(** Callbacks that are all unset. *)
Definition no_callbacks : Orchestrator.PipelineCallbacks :=
  {| Orchestrator.on_downloading := None; Orchestrator.on_transcribing := None;
     Orchestrator.on_extracting := None; Orchestrator.on_publishing := None;
     Orchestrator.on_complete := None; Orchestrator.on_error := None |}.

(** A response of the model inside a fence: the opening fence with its
    language tag, the text, the closing fence. *)
Definition fenced (tag body : str) : str :=
  Orchestrator.fence ++ tag ++ [newline] ++ body ++ [newline] ++ Orchestrator.fence.

(** The answer of the model process when it ends well. *)
Definition answers (w : Orchestrator.world) (out : str) : Prop :=
  exists err,
    Orchestrator.w_claude w
    = PyExn.Returns {| Orchestrator.returncode := 0%Z;
                       Orchestrator.stdout := out;
                       Orchestrator.stderr := err |}.

(** The same collaborators with a model process that prints [out]. *)
Definition answering (w : Orchestrator.world) (out : str) : Orchestrator.world :=
  {| Orchestrator.w_mkdtemp := Orchestrator.w_mkdtemp w;
     Orchestrator.w_cleanup := Orchestrator.w_cleanup w;
     Orchestrator.w_cached_transcript := Orchestrator.w_cached_transcript w;
     Orchestrator.w_ytdlp := Orchestrator.w_ytdlp w;
     Orchestrator.w_audio_file := Orchestrator.w_audio_file w;
     Orchestrator.w_whisper_text := Orchestrator.w_whisper_text w;
     Orchestrator.w_save_cache := Orchestrator.w_save_cache w;
     Orchestrator.w_claude :=
       PyExn.Returns
         {| Orchestrator.returncode := 0%Z; Orchestrator.stdout := out;
            Orchestrator.stderr := [] |};
     Orchestrator.w_json_loads := Orchestrator.w_json_loads w;
     Orchestrator.w_thumbnail := Orchestrator.w_thumbnail w;
     Orchestrator.w_copy2 := Orchestrator.w_copy2 w;
     Orchestrator.w_post := Orchestrator.w_post w |}.

End MoreProps.

(* ================================================================== *)
(** * Facts about strings *)
(* ================================================================== *)

Import PyStr Regex PyFloat Pipeline Props.

Arguments is_space : simpl never.
Arguments is_digit : simpl never.
Arguments is_alpha : simpl never.
Arguments char_eqb : simpl never.

Section StringFacts.

Lemma char_eqb_eq : forall a b, char_eqb a b = true <-> a = b.
Proof. intros a b. unfold char_eqb. apply Ascii.eqb_eq. Qed.

Lemma char_eqb_neq : forall a b, char_eqb a b = false <-> a <> b.
Proof. intros a b. unfold char_eqb. apply Ascii.eqb_neq. Qed.

Lemma char_eqb_refl : forall a, char_eqb a a = true.
Proof. intro a. apply char_eqb_eq. reflexivity. Qed.

Lemma str_eqb_eq : forall a b, str_eqb a b = true <-> a = b.
Proof.
  induction a as [|x a IH]; destruct b as [|y b]; simpl; split; intro H;
    try reflexivity; try discriminate.
  - apply andb_true_iff in H. destruct H as [H1 H2].
    apply char_eqb_eq in H1. apply IH in H2. congruence.
  - injection H as -> ->. rewrite char_eqb_refl. simpl. apply IH. reflexivity.
Qed.

Lemma is_empty_nil : forall s, is_empty s = true <-> s = [].
Proof. destruct s; simpl; split; intro; congruence. Qed.

(** ** Stripping *)

Lemma lstrip_app_mid : forall a c b,
  is_space c = false -> lstrip (a ++ c :: b) = lstrip a ++ c :: b.
Proof.
  induction a as [|x a IH]; intros c b Hc; simpl.
  - rewrite Hc. reflexivity.
  - destruct (is_space x); [apply IH; assumption | reflexivity].
Qed.

Lemma rstrip_app_mid : forall a c b,
  is_space c = false -> rstrip (a ++ c :: b) = a ++ c :: rstrip b.
Proof.
  induction a as [|x a IH]; intros c b Hc; simpl.
  - rewrite Hc. reflexivity.
  - rewrite IH by assumption.
    destruct a; simpl; rewrite andb_false_r; reflexivity.
Qed.

Lemma strip_app_mid : forall a c b,
  is_space c = false -> strip (a ++ c :: b) = lstrip a ++ c :: rstrip b.
Proof.
  intros a c b Hc. unfold strip.
  rewrite lstrip_app_mid by assumption. apply rstrip_app_mid. assumption.
Qed.

Lemma lstrip_idem : forall s, lstrip (lstrip s) = lstrip s.
Proof.
  induction s as [|x s IH]; simpl; [reflexivity|].
  destruct (is_space x) eqn:E; [assumption|]. simpl. rewrite E. reflexivity.
Qed.

Lemma rstrip_idem : forall s, rstrip (rstrip s) = rstrip s.
Proof.
  induction s as [|x s IH]; simpl; [reflexivity|].
  destruct (is_space x && is_empty (rstrip s))%bool eqn:E; [reflexivity|].
  simpl. rewrite IH, E. reflexivity.
Qed.

Lemma lstrip_rstrip_comm : forall s, lstrip (rstrip s) = rstrip (lstrip s).
Proof.
  induction s as [|x s IH]; simpl; [reflexivity|].
  destruct (is_space x) eqn:E; simpl.
  - destruct (is_empty (rstrip s)) eqn:F; simpl.
    + rewrite <- IH. apply is_empty_nil in F. rewrite F. reflexivity.
    + rewrite E. assumption.
  - rewrite E. reflexivity.
Qed.

Lemma strip_lstrip : forall s, strip (lstrip s) = strip s.
Proof. intro s. unfold strip. rewrite lstrip_idem. reflexivity. Qed.

Lemma strip_rstrip : forall s, strip (rstrip s) = strip s.
Proof.
  intro s. unfold strip. rewrite lstrip_rstrip_comm, rstrip_idem. reflexivity.
Qed.

Lemma strip_idem : forall s, strip (strip s) = strip s.
Proof. intro s. unfold strip at 2. rewrite strip_rstrip, strip_lstrip. reflexivity. Qed.

Lemma In_lstrip : forall c s, In c (lstrip s) -> In c s.
Proof.
  induction s as [|x s IH]; simpl; [tauto|].
  destruct (is_space x); simpl; tauto.
Qed.

Lemma In_rstrip : forall c s, In c (rstrip s) -> In c s.
Proof.
  induction s as [|x s IH]; simpl; [tauto|].
  destruct (is_space x && is_empty (rstrip s))%bool; simpl; tauto.
Qed.

Lemma In_strip : forall c s, In c (strip s) -> In c s.
Proof. intros c s H. apply In_lstrip, In_rstrip. exact H. Qed.

(** ** Searching and splitting *)

Lemma strip_prefix_app : forall p s r,
  strip_prefix p s = Some r -> s = p ++ r.
Proof.
  induction p as [|a p IH]; intros s r H; simpl in *.
  - congruence.
  - destruct s as [|b s]; [discriminate|].
    destruct (char_eqb a b) eqn:E; [|discriminate].
    apply char_eqb_eq in E. subst b. f_equal. apply IH. assumption.
Qed.

Lemma find_sep_app : forall sep s b a,
  find_sep sep s = Some (b, a) -> s = b ++ sep ++ a.
Proof.
  intros sep. induction s as [|c s IH]; intros b a H.
  - simpl in H. destruct (strip_prefix sep []) eqn:E.
    + injection H as <- <-. apply strip_prefix_app in E. exact E.
    + discriminate.
  - simpl in H. destruct (strip_prefix sep (c :: s)) eqn:E.
    + injection H as <- <-. apply strip_prefix_app in E. exact E.
    + destruct (find_sep sep s) as [[b' a']|] eqn:F; [|discriminate].
      injection H as <- <-. simpl. f_equal. apply IH. reflexivity.
Qed.

Lemma find_sep_char_none : forall c s,
  ~ In c s -> find_sep [c] s = None.
Proof.
  induction s as [|x s IH]; intro H; simpl.
  - reflexivity.
  - destruct (char_eqb c x) eqn:E.
    + apply char_eqb_eq in E. subst. exfalso. apply H. left. reflexivity.
    + rewrite IH; [reflexivity|]. intro K. apply H. right. exact K.
Qed.

Lemma find_sep_char_some : forall c a b,
  ~ In c a -> find_sep [c] (a ++ c :: b) = Some (a, b).
Proof.
  induction a as [|x a IH]; intros b H; simpl.
  - rewrite char_eqb_refl. reflexivity.
  - destruct (char_eqb c x) eqn:E.
    + apply char_eqb_eq in E. subst. exfalso. apply H. left. reflexivity.
    + rewrite IH; [reflexivity|]. intro K. apply H. right. exact K.
Qed.

Lemma find_sep_char_before : forall c s b a,
  find_sep [c] s = Some (b, a) -> ~ In c b.
Proof.
  induction s as [|x s IH]; intros b a H; simpl in H.
  - discriminate.
  - destruct (char_eqb c x) eqn:E.
    + injection H as <- <-. simpl. tauto.
    + destruct (find_sep [c] s) as [[b' a']|] eqn:F; [|discriminate].
      injection H as <- <-. simpl. intros [K|K].
      * apply char_eqb_neq in E. congruence.
      * eapply IH; eauto.
Qed.

Lemma contains_char_false : forall c s,
  contains [c] s = false <-> ~ In c s.
Proof.
  intros c s. unfold contains. split.
  - intros H K. apply in_split in K. destruct K as [a [b ->]].
    revert H. induction a as [|x a IH]; simpl.
    + rewrite char_eqb_refl. discriminate.
    + destruct (char_eqb c x); [discriminate|].
      destruct (find_sep [c] (a ++ c :: b)) as [[? ?]|]; [discriminate|].
      intros _. apply IH. reflexivity.
  - intro H. rewrite find_sep_char_none by assumption. reflexivity.
Qed.

Lemma contains_char_true : forall c s,
  contains [c] s = true <-> In c s.
Proof.
  intros c s. split; intro H.
  - destruct (in_dec ascii_dec c s) as [K|K]; [assumption|].
    apply contains_char_false in K. congruence.
  - destruct (contains [c] s) eqn:E; [reflexivity|].
    apply contains_char_false in E. contradiction.
Qed.

(** The parts of a split by one character do not hold it, and hold
    characters of the string only. *)
Lemma split_rounds_char_parts : forall c n s,
  length s <= n ->
  Forall (fun p => ~ In c p /\ (forall x, In x p -> In x s)) (split_rounds n [c] s).
Proof.
  intros c. induction n as [|n IH]; intros s Hn; simpl.
  - destruct s; [|simpl in Hn; lia]. constructor; [|constructor].
    split; [simpl; tauto | tauto].
  - destruct (find_sep [c] s) as [[b a]|] eqn:F.
    + pose proof (find_sep_app _ _ F) as E.
      pose proof (find_sep_char_before _ _ F) as Hb.
      constructor.
      * split; [assumption|]. intros x Hx. subst s. apply in_or_app. left. exact Hx.
      * assert (La : length a <= n).
        { subst s. rewrite length_app in Hn. simpl in Hn. lia. }
        specialize (IH a La). eapply Forall_impl; [|exact IH].
        simpl. intros p [H1 H2]. split; [assumption|].
        intros x Hx. subst s. apply in_or_app. right. right. apply H2. exact Hx.
    + constructor; [|constructor]. split; [|tauto].
      apply contains_char_false. unfold contains. rewrite F. reflexivity.
Qed.

Lemma split_char_parts : forall c s,
  Forall (fun p => ~ In c p /\ (forall x, In x p -> In x s)) (split [c] s).
Proof. intros c s. apply split_rounds_char_parts. apply Nat.le_refl. Qed.

Lemma split_char_two : forall c a b,
  ~ In c a -> ~ In c b -> split [c] (a ++ c :: b) = [a; b].
Proof.
  intros c a b Ha Hb. unfold split. rewrite length_app. simpl.
  rewrite Nat.add_succ_r. simpl.
  rewrite find_sep_char_some by assumption. f_equal.
  destruct (length a + length b) as [|n]; simpl; [reflexivity|].
  rewrite find_sep_char_none by assumption. reflexivity.
Qed.

Lemma split_none : forall sep s,
  find_sep sep s = None -> split sep s = [s].
Proof.
  intros sep s H. unfold split. destruct (length s); simpl; [reflexivity|].
  rewrite H. reflexivity.
Qed.

End StringFacts.

(* ================================================================== *)
(** * Facts about quantities ([_parse_amount]) *)
(* ================================================================== *)

Section AmountFacts.

Lemma sign_ok_never_negative : forall f, sign_ok f -> never_negative (PyFloat f).
Proof.
  intros f H. unfold never_negative, py_ge0. simpl.
  destruct f as [s|s| |s m e]; simpl in *; subst; auto.
Qed.

Lemma never_negative_int0 : never_negative PyInt0.
Proof. left. reflexivity. Qed.

Lemma binary_round_aux_sign : forall m e l,
  sign_ok (binary_round_aux prec emax false m e l).
Proof.
  intros m e l. unfold binary_round_aux.
  destruct (shr_fexp prec emax m e l) as [mrs' e'].
  destruct (shr_fexp prec emax _ e' loc_Exact) as [mrs'' e''].
  destruct (shr_m mrs''); simpl; auto.
  destruct (_ <=? _)%Z; simpl; auto.
Qed.

Lemma round_ratio_sign : forall p q, sign_ok (round_ratio false p q).
Proof.
  intros p q. unfold round_ratio.
  destruct (SFdiv_core_binary prec emax (Zpos p) 0 (Zpos q) 0) as [[mz ez] lz].
  apply binary_round_aux_sign.
Qed.

Lemma of_decimal_sign : forall n e, sign_ok (of_decimal false n e).
Proof.
  intros n e. unfold of_decimal.
  destruct n; simpl; auto.
  destruct e; apply round_ratio_sign.
Qed.

Lemma fdiv_sign : forall x y, sign_ok x -> sign_ok y -> sign_ok (fdiv x y).
Proof.
  intros x y Hx Hy. unfold fdiv, SFdiv.
  destruct x as [sx|sx| |sx mx ex]; destruct y as [sy|sy| |sy my ey];
    simpl in *; subst; simpl; auto.
  destruct (SFdiv_core_binary prec emax (Zpos mx) ex (Zpos my) ey) as [[mz ez] lz].
  apply binary_round_aux_sign.
Qed.

(** What [float] skips at the ends is made of characters of the string. *)
Lemma In_lskip : forall c s, In c (lskip s) -> In c s.
Proof.
  induction s as [|x s IH]; simpl; [tauto|].
  destruct (is_float_space x); simpl; tauto.
Qed.

Lemma In_rskip : forall c s, In c (rskip s) -> In c s.
Proof.
  induction s as [|x s IH]; simpl; [tauto|].
  destruct (is_float_space x && is_empty (rskip s))%bool; simpl; tauto.
Qed.

(** A string without ["-"] is not read as a negative float. *)
Lemma py_float_sign : forall s f,
  ~ In dash s -> py_float s = Some f -> sign_ok f.
Proof.
  intros s f Hd. unfold py_float.
  assert (Ht : ~ In dash (rskip (lskip s))).
  { intro K. apply Hd. apply In_lskip, In_rskip. exact K. }
  destruct (rskip (lskip s)) as [|c t] eqn:Et.
  - simpl. unfold floatnumber. simpl. discriminate.
  - assert (Hc : char_eqb c "-" = false).
    { apply char_eqb_neq. intro K. apply Ht. left. exact K. }
    rewrite Hc.
    assert (Hgen : forall u,
      (if (str_eqb (lower u) (lit "inf") || str_eqb (lower u) (lit "infinity"))%bool
       then Some (S754_infinity false)
       else if str_eqb (lower u) (lit "nan") then Some S754_nan
       else floatnumber false u) = Some f -> sign_ok f).
    { intros u.
      destruct (str_eqb (lower u) (lit "inf") || str_eqb (lower u) (lit "infinity"))%bool.
      - intro K. injection K as <-. reflexivity.
      - destruct (str_eqb (lower u) (lit "nan")).
        + intro K. injection K as <-. exact I.
        + unfold floatnumber.
          destruct (number u) as [[[ip fp] r]|]; [|discriminate].
          destruct (exponent r); [|discriminate].
          intro K. injection K as <-. apply of_decimal_sign. }
    destruct (char_eqb c "+"); apply Hgen.
Qed.

(** ** The branches of [_parse_amount] *)

Lemma parse_amount_depth_S : forall d s,
  parse_amount_depth (S d) s =
    if contains [dash] (strip s) then
      match all_some (map (parse_amount_depth d) (split [dash] (strip s))) with
      | Some vs => match py_max vs with Some v => Some v | None => Some PyInt0 end
      | None => Some PyInt0
      end
    else if contains [slash] (strip s) then
      match split [slash] (strip s) with
      | [num; den] =>
          match py_float (strip num), py_float (strip den) with
          | Some x, Some y => if is_zero y then Some PyInt0 else Some (PyFloat (fdiv x y))
          | _, _ => Some PyInt0
          end
      | _ => Some PyInt0
      end
    else match py_float (strip s) with Some x => Some (PyFloat x) | None => Some PyInt0 end.
Proof. reflexivity. Qed.

Lemma parse_amount_depth_flat' : forall d s,
  ~ In dash (strip s) -> parse_amount_depth (S d) s = Some (parse_flat (strip s)).
Proof.
  intros d s H. rewrite parse_amount_depth_S.
  apply contains_char_false in H. rewrite H. unfold parse_flat.
  destruct (contains [slash] (strip s)).
  - destruct (split [slash] (strip s)) as [|num [|den [|x l]]]; try reflexivity.
    destruct (py_float (strip num)); [|reflexivity].
    destruct (py_float (strip den)) as [y|]; [|reflexivity].
    destruct (is_zero y); reflexivity.
  - destruct (py_float (strip s)); reflexivity.
Qed.

Lemma parse_amount_depth_flat : forall d s,
  ~ In dash s -> parse_amount_depth (S d) s = Some (parse_flat (strip s)).
Proof.
  intros d s H. apply parse_amount_depth_flat'.
  intro K. apply H. apply In_strip. exact K.
Qed.

Lemma all_some_map_some : forall (A B : Type) (f : A -> option B) (g : A -> B) l,
  (forall x, In x l -> f x = Some (g x)) ->
  all_some (map f l) = Some (map g l).
Proof.
  intros A B f g. induction l as [|x l IH]; intro H; simpl; [reflexivity|].
  rewrite (H x) by (left; reflexivity).
  rewrite IH; [reflexivity|]. intros y Hy. apply H. right. exact Hy.
Qed.

(** The range branch: the parts hold no ["-"]. *)
Lemma parse_amount_depth_range : forall d s,
  In dash (strip s) ->
  parse_amount_depth (S (S d)) s =
    Some (match py_max (map (fun p => parse_flat (strip p)) (split [dash] (strip s))) with
          | Some v => v
          | None => PyInt0
          end).
Proof.
  intros d s H. rewrite parse_amount_depth_S.
  apply contains_char_true in H. rewrite H.
  rewrite (all_some_map_some (parse_amount_depth (S d)) (fun p => parse_flat (strip p))).
  - destruct (py_max _); reflexivity.
  - intros p Hp. apply parse_amount_depth_flat.
    pose proof (split_char_parts dash (strip s)) as F.
    rewrite Forall_forall in F. apply (F p Hp).
Qed.

(** Two nested calls are enough: a deeper bound changes nothing, and a
    result is always returned. *)
Lemma parse_amount_depth_stable : forall d s,
  parse_amount_depth (S (S d)) s = Some (_parse_amount s).
Proof.
  intros d s. unfold _parse_amount.
  destruct (in_dec ascii_dec dash (strip s)) as [H|H].
  - rewrite (parse_amount_depth_range d s H), (parse_amount_depth_range 0 s H).
    reflexivity.
  - rewrite (parse_amount_depth_flat' (S d) s H), (parse_amount_depth_flat' 1 s H).
    reflexivity.
Qed.

Lemma parse_amount_flat : forall s,
  ~ In dash (strip s) -> _parse_amount s = parse_flat (strip s).
Proof.
  intros s H. unfold _parse_amount.
  rewrite parse_amount_depth_flat' by assumption. reflexivity.
Qed.

Lemma parse_amount_range : forall s,
  In dash (strip s) ->
  _parse_amount s =
    match py_max (map (fun p => parse_flat (strip p)) (split [dash] (strip s))) with
    | Some v => v
    | None => PyInt0
    end.
Proof.
  intros s H. unfold _parse_amount.
  rewrite (parse_amount_depth_range 0 s H). reflexivity.
Qed.

End AmountFacts.

(* ================================================================== *)
(** * Quantities: ranges, fractions, defaults and sign *)
(* ================================================================== *)

Section AmountLaws.

Lemma dash_not_space : is_space dash = false.
Proof. reflexivity. Qed.

Lemma slash_not_space : is_space slash = false.
Proof. reflexivity. Qed.

Lemma not_In_lstrip : forall c s, ~ In c s -> ~ In c (lstrip s).
Proof. intros c s H K. apply H, In_lstrip, K. Qed.

Lemma not_In_rstrip : forall c s, ~ In c s -> ~ In c (rstrip s).
Proof. intros c s H K. apply H, In_rstrip, K. Qed.

Lemma not_In_strip : forall c s, ~ In c s -> ~ In c (strip s).
Proof. intros c s H K. apply H, In_strip, K. Qed.

Lemma not_In_mid : forall (c d : ascii) a b,
  c <> d -> ~ In c a -> ~ In c b -> ~ In c (a ++ d :: b).
Proof.
  intros c d a b Hcd Ha Hb K. apply in_app_or in K.
  destruct K as [K|[K|K]]; [apply Ha, K | apply Hcd; symmetry; exact K | apply Hb, K].
Qed.

Lemma parse_flat_never_negative : forall s,
  ~ In dash s -> never_negative (parse_flat s).
Proof.
  intros s H. unfold parse_flat.
  destruct (contains [slash] s).
  - pose proof (split_char_parts slash s) as F.
    destruct (split [slash] s) as [|num [|den [|x l]]];
      try apply never_negative_int0.
    inversion F as [|? ? [_ Hn] F']. subst.
    inversion F' as [|? ? [_ Hd] _]. subst.
    destruct (py_float (strip num)) as [x|] eqn:Ex; [|apply never_negative_int0].
    destruct (py_float (strip den)) as [y|] eqn:Ey; [|apply never_negative_int0].
    destruct (is_zero y); [apply never_negative_int0|].
    apply sign_ok_never_negative. apply fdiv_sign.
    + apply (py_float_sign (strip num)); [|exact Ex].
      intro K. apply H, Hn, In_strip, K.
    + apply (py_float_sign (strip den)); [|exact Ey].
      intro K. apply H, Hd, In_strip, K.
  - destruct (py_float s) as [x|] eqn:Ex; [|apply never_negative_int0].
    apply sign_ok_never_negative. apply (py_float_sign s); assumption.
Qed.

Lemma py_max_in : forall (P : pynum -> Prop) l v,
  Forall P l -> py_max l = Some v -> P v.
Proof.
  intros P l v F. destruct l as [|x l]; simpl; [discriminate|].
  intro E. injection E as <-.
  inversion F as [|? ? Hx Hl]. subst. clear F.
  revert x Hx. induction l as [|y l IH]; intros x Hx; simpl; [assumption|].
  inversion Hl as [|? ? Hy Hl']. subst.
  apply IH; [assumption|]. destruct (py_gt y x); assumption.
Qed.

Lemma parse_amount_never_negative : forall s, never_negative (_parse_amount s).
Proof.
  intro s. destruct (in_dec ascii_dec dash (strip s)) as [H|H].
  - rewrite parse_amount_range by assumption.
    destruct (py_max _) as [v|] eqn:E; [|apply never_negative_int0].
    apply (@py_max_in never_negative) in E; [assumption|].
    apply Forall_map.
    pose proof (split_char_parts dash (strip s)) as F.
    eapply Forall_impl; [|exact F]. simpl. intros p [Hp _].
    apply parse_flat_never_negative. apply not_In_strip. exact Hp.
  - rewrite parse_amount_flat by assumption.
    apply parse_flat_never_negative. exact H.
Qed.

Lemma parse_amount_range_two : forall a b,
  ~ In dash a -> ~ In dash b ->
  py_max [_parse_amount a; _parse_amount b] = Some (_parse_amount (a ++ lit "-" ++ b)).
Proof.
  intros a b Ha Hb. change (lit "-" ++ b) with (dash :: b).
  assert (E : strip (a ++ dash :: b) = lstrip a ++ dash :: rstrip b).
  { apply strip_app_mid. apply dash_not_space. }
  rewrite (parse_amount_range (a ++ dash :: b)).
  - rewrite E. rewrite split_char_two
      by (apply not_In_lstrip || apply not_In_rstrip; assumption).
    cbn [map]. rewrite strip_lstrip, strip_rstrip.
    rewrite (parse_amount_flat a) by (apply not_In_strip; assumption).
    rewrite (parse_amount_flat b) by (apply not_In_strip; assumption).
    simpl. destruct (py_gt _ _); reflexivity.
  - rewrite E. apply in_or_app. right. left. reflexivity.
Qed.

Lemma parse_amount_fraction_unfold : forall a b,
  ~ In dash a -> ~ In slash a -> ~ In dash b -> ~ In slash b ->
  _parse_amount (a ++ lit "/" ++ b) =
    match py_float (strip a), py_float (strip b) with
    | Some x, Some y => if is_zero y then PyInt0 else PyFloat (fdiv x y)
    | _, _ => PyInt0
    end.
Proof.
  intros a b Ha Sa Hb Sb. change (lit "/" ++ b) with (slash :: b).
  assert (E : strip (a ++ slash :: b) = lstrip a ++ slash :: rstrip b).
  { apply strip_app_mid. apply slash_not_space. }
  rewrite parse_amount_flat.
  - rewrite E. unfold parse_flat.
    assert (C : contains [slash] (lstrip a ++ slash :: rstrip b) = true).
    { apply contains_char_true. apply in_or_app. right. left. reflexivity. }
    rewrite C.
    rewrite split_char_two
      by (apply not_In_lstrip || apply not_In_rstrip; assumption).
    rewrite strip_lstrip, strip_rstrip. reflexivity.
  - rewrite E. apply not_In_mid.
    + discriminate.
    + apply not_In_lstrip. assumption.
    + apply not_In_rstrip. assumption.
Qed.

End AmountLaws.

(** C5, as the code has it: a range ["a-b"] parses to
    [max(parse(a), parse(b))]; a fraction ["a/b"] parses to the quotient of
    the two floats, and to [0] when the denominator is zero or when a side
    is not a number; a token that is no range, no fraction and no number
    parses to [0]; and for every input the result is never negative: it
    compares [>= 0], or it is NaN. *)
Theorem parse_amount_laws :
  (forall a b, ~ In dash a -> ~ In dash b ->
     py_max [_parse_amount a; _parse_amount b]
       = Some (_parse_amount (a ++ lit "-" ++ b)))
  /\ (forall a b x y,
        ~ In dash a -> ~ In slash a -> ~ In dash b -> ~ In slash b ->
        py_float (strip a) = Some x -> py_float (strip b) = Some y ->
        _parse_amount (a ++ lit "/" ++ b)
          = if is_zero y then PyInt0 else PyFloat (fdiv x y))
  /\ (forall a b,
        ~ In dash a -> ~ In slash a -> ~ In dash b -> ~ In slash b ->
        py_float (strip a) = None \/ py_float (strip b) = None ->
        _parse_amount (a ++ lit "/" ++ b) = PyInt0)
  /\ (forall s, ~ In dash s -> ~ In slash s -> py_float (strip s) = None ->
        _parse_amount s = PyInt0)
  /\ (forall s, never_negative (_parse_amount s)).
Proof.
  repeat split.
  - apply parse_amount_range_two.
  - intros a b x y Ha Sa Hb Sb Ex Ey.
    rewrite parse_amount_fraction_unfold by assumption.
    rewrite Ex, Ey. reflexivity.
  - intros a b Ha Sa Hb Sb [E|E];
      rewrite parse_amount_fraction_unfold by assumption; rewrite E.
    + reflexivity.
    + destruct (py_float (strip a)); reflexivity.
  - intros s Hs Ss E. rewrite parse_amount_flat by (apply not_In_strip; assumption).
    unfold parse_flat.
    assert (C : contains [slash] (strip s) = false).
    { apply contains_char_false. apply not_In_strip. assumption. }
    rewrite C, E. reflexivity.
  - apply parse_amount_never_negative.
Qed.

Ltac not_in_literal := cbn; intuition discriminate.

Lemma parse_amount_laws_witness :
  py_max [_parse_amount (lit "1"); _parse_amount (lit "2")]
    = Some (_parse_amount (lit "1" ++ lit "-" ++ lit "2"))
  /\ _parse_amount (lit "1" ++ lit "/" ++ lit "2")
       = PyFloat (fdiv (S754_finite false 4503599627370496 (-52))
                       (S754_finite false 4503599627370496 (-51)))
  /\ _parse_amount (lit "x" ++ lit "/" ++ lit "2") = PyInt0
  /\ _parse_amount (lit "abc") = PyInt0.
Proof.
  destruct parse_amount_laws as [H1 [H2 [H3 [H4 _]]]].
  split; [|split; [|split]].
  - apply H1; not_in_literal.
  - apply (H2 (lit "1") (lit "2")
              (S754_finite false 4503599627370496 (-52))
              (S754_finite false 4503599627370496 (-51)));
      try not_in_literal; reflexivity.
  - apply H3; try not_in_literal; try (left; reflexivity).
  - apply H4; try not_in_literal; try reflexivity.
Defined.

(** C5, the claim as stated fails: ["nan"] parses to NaN, which does not
    compare [>= 0]. *)
Lemma parse_amount_nan_not_ge0 :
  _parse_amount (lit "nan") = PyFloat S754_nan
  /\ py_ge0 (_parse_amount (lit "nan")) = false.
Proof. split; reflexivity. Qed.

(** NaN also comes out of an ingredient line: both sides of the fraction
    are read as infinity, and their quotient is NaN. *)
Lemma parse_ingredient_nan_amount :
  i_amount (parse_ingredient_string
              (four_hundred_nines ++ lit "/" ++ four_hundred_nines ++ lit " cups flour"))
  = PyFloat S754_nan.
Proof. vm_compute. reflexivity. Qed.

(* ================================================================== *)
(** * Conversion: servings, rescaling and the step list *)
(* ================================================================== *)

Section Conversion.
Local Open Scope Z_scope.

Lemma jsonld_no_rescale : forall r ov,
  must_rescale ov (original_servings_of r) = false ->
  exists t, jsonld_to_tandoor r ov = Some t
    /\ ingredients_of t = parsed_ingredients r
    /\ t_servings t = (if truthy ov then get_or 0 ov else original_servings_of r)
    /\ t_steps t =
         {| s_name := []; s_instruction := [];
            s_ingredients := parsed_ingredients r;
            s_show_ingredients_table := true |}
         :: map section_step (_split_instruction_sections (instruction_text_of r)).
Proof.
  intros r ov H. unfold jsonld_to_tandoor. rewrite H.
  eexists. split; [reflexivity|]. repeat split.
Qed.

Lemma jsonld_rescale : forall r ov scale,
  must_rescale ov (original_servings_of r) = true ->
  int_truediv (get_or 0 ov) (original_servings_of r) = Some scale ->
  exists t, jsonld_to_tandoor r ov = Some t
    /\ ingredients_of t = map (rescale scale) (parsed_ingredients r)
    /\ t_steps t =
         {| s_name := []; s_instruction := [];
            s_ingredients := map (rescale scale) (parsed_ingredients r);
            s_show_ingredients_table := true |}
         :: map section_step (_split_instruction_sections (instruction_text_of r)).
Proof.
  intros r ov scale H E. unfold jsonld_to_tandoor. rewrite H, E.
  eexists. split; [reflexivity|]. repeat split.
Qed.

Lemma jsonld_overflow : forall r ov,
  must_rescale ov (original_servings_of r) = true ->
  int_truediv (get_or 0 ov) (original_servings_of r) = None ->
  jsonld_to_tandoor r ov = None.
Proof.
  intros r ov H E. unfold jsonld_to_tandoor. rewrite H, E. reflexivity.
Qed.




End Conversion.

(** C10: a servings override of [0] is no override: the conversion
    returns what it returns without one, the servings are the ones read
    from the yield, and no quantity is rescaled. *)
Theorem servings_override_zero_is_none : forall r,
  jsonld_to_tandoor r (Some 0%Z) = jsonld_to_tandoor r None
  /\ exists t, jsonld_to_tandoor r (Some 0%Z) = Some t
       /\ t_servings t = original_servings_of r
       /\ ingredients_of t = parsed_ingredients r.
Proof.
  intro r. split; [reflexivity|].
  destruct (@jsonld_no_rescale r (Some 0%Z) eq_refl) as [t [E [I [S _]]]].
  exists t. repeat split; assumption.
Qed.





(* ================================================================== *)
(** * Instruction sections *)
(* ================================================================== *)

(** The example of the specification: two sections, in their order. *)
Lemma split_sections_two_headers :
  _split_instruction_sections
    (lit "## A" ++ [newline] ++ lit "body1" ++ [newline; newline]
       ++ lit "## B" ++ [newline] ++ lit "body2")
  = [(lit "A", lit "body1"); (lit "B", lit "body2")].
Proof. reflexivity. Qed.

(** A text without a marker is one part, and its first line is taken as
    the header: the section titled "Instructions" is not produced. *)
Lemma split_sections_without_marker : forall text,
  contains (lit "## ") text = false ->
  strip text <> [] ->
  _split_instruction_sections text
  = [(strip (hd [] (split1 [newline] (strip text))),
      match split1 [newline] (strip text) with
      | _ :: l1 :: _ => strip l1
      | _ => []
      end)].
Proof.
  intros text C Hs. unfold _split_instruction_sections.
  destruct text as [|c text]; [exfalso; apply Hs; reflexivity|].
  cbn [is_empty].
  rewrite split_none.
  - cbn [fold_left]. destruct (strip (c :: text)) eqn:E; [congruence|].
    cbn [is_empty app]. reflexivity.
  - unfold contains in C. destruct (find_sep (lit "## ") (c :: text)); [discriminate|reflexivity].
Qed.

(** The synthetic section is what a text made of markers and white space
    gives. *)
Lemma split_sections_marker_only :
  _split_instruction_sections (lit "## ") = [(lit "Instructions", lit "##")].
Proof. reflexivity. Qed.

(** C1, on the code: for the text ["Mix well."], which is not empty and
    holds no marker, the result is the section [("Mix well.", "")] and not
    [("Instructions", "Mix well.")]. *)
Theorem split_sections_no_marker_bug :
  contains (lit "##") (lit "Mix well.") = false
  /\ _split_instruction_sections (lit "Mix well.") = [(lit "Mix well.", [])]
  /\ _split_instruction_sections (lit "Mix well.")
       <> [(lit "Instructions", lit "Mix well.")].
Proof. repeat split. discriminate. Qed.

(* ================================================================== *)
(** * Ingredient lines *)
(* ================================================================== *)

(** The examples of the specification. *)
Lemma parse_ingredient_flour :
  parse_ingredient_string (lit "200 g flour, sifted")
  = {| i_amount := PyFloat (S754_finite false 7036874417766400 (-45));
       i_unit := Some (lit "g"); i_food := lit "flour";
       i_note := lit "sifted"; i_no_amount := false |}.
Proof. reflexivity. Qed.

Lemma float_200 : py_float (lit "200") = Some (S754_finite false 7036874417766400 (-45)).
Proof. reflexivity. Qed.

Lemma parse_ingredient_eggs :
  parse_ingredient_string (lit "2 large eggs")
  = {| i_amount := PyFloat (S754_finite false 4503599627370496 (-51));
       i_unit := None; i_food := lit "large eggs";
       i_note := []; i_no_amount := false |}.
Proof. reflexivity. Qed.

Lemma parse_ingredient_pinch :
  parse_ingredient_string (lit "a pinch of salt")
  = {| i_amount := PyInt0; i_unit := None; i_food := lit "a pinch of salt";
       i_note := []; i_no_amount := true |}.
Proof. reflexivity. Qed.

Lemma parse_ingredient_no_unit :
  parse_ingredient_string (lit "2 eggs")
  = {| i_amount := PyFloat (S754_finite false 4503599627370496 (-51));
       i_unit := None; i_food := lit "eggs";
       i_note := []; i_no_amount := false |}.
Proof. reflexivity. Qed.

(** The first pattern takes two words as the middle token when more text
    follows them. *)
Lemma unit_food_re_two_words :
  option_map (fun m => (group 1 m, group 2 m, group 3 m))
    (re_match unit_food_re (lit "2 tbsp olive oil"))
  = Some (lit "2", lit "tbsp olive", lit "oil").
Proof. reflexivity. Qed.

(** C3, on the code: ["2 tbsp olive oil"] is a quantity, the recognized
    unit ["tbsp"] and a food, and yet the result has no unit and the food
    ["tbsp olive oil"]. *)
Theorem parse_ingredient_unit_before_two_words_bug :
  is_known_unit (lit "tbsp") = true
  /\ parse_ingredient_string (lit "2 tbsp olive oil")
     = {| i_amount := PyFloat (S754_finite false 4503599627370496 (-51));
          i_unit := None; i_food := lit "tbsp olive oil";
          i_note := []; i_no_amount := false |}.
Proof. split; reflexivity. Qed.

(* ================================================================== *)
(** * Queue admission *)
(* ================================================================== *)

Import Bot.

(** C2, as the code has it: with 3 pending jobs the job is refused with
    the queue-full reply and the queue is unchanged; below that, when a
    job is pending or one is running, the caller is told the position
    [qsize + 1] before the job is put at the end of the queue, and is told
    nothing on an idle queue; the second job, submitted while the first is
    running, is told position 1. *)
Theorem enqueue_admission : forall url st,
  (3 <= qsize st -> _enqueue url st = ([Reply queue_full_text], st))
  /\ (qsize st < 3 -> 0 < qsize st \/ _processing st = true ->
        _enqueue url st
        = ([Reply (queued_text (qsize st + 1)); Put url],
           {| _job_queue := _job_queue st ++ [url];
              _processing := _processing st |}))
  /\ (qsize st = 0 -> _processing st = false ->
        _enqueue url st
        = ([Put url],
           {| _job_queue := _job_queue st ++ [url];
              _processing := _processing st |}))
  /\ (forall first,
        exists running,
          worker_get (snd (_enqueue first initial)) = Some (first, running)
          /\ _processing running = true
          /\ fst (_enqueue url running) = [Reply (queued_text 1); Put url]).
Proof.
  intros url st. repeat split.
  - intro H. unfold _enqueue, full, MAX_QUEUE.
    apply Nat.leb_le in H. rewrite H. reflexivity.
  - intros H B. unfold _enqueue, full, MAX_QUEUE.
    assert (F : Nat.leb 3 (qsize st) = false) by (apply Nat.leb_gt; exact H).
    rewrite F.
    assert (G : (Nat.ltb 0 (qsize st) || _processing st)%bool = true).
    { destruct B as [B|B].
      - apply Nat.ltb_lt in B. rewrite B. reflexivity.
      - rewrite B. apply orb_true_r. }
    rewrite G. reflexivity.
  - intros H B. unfold _enqueue, full, MAX_QUEUE.
    rewrite H, B. reflexivity.
  - intro first. eexists. split; [reflexivity|]. split; reflexivity.
Qed.

Lemma enqueue_admission_witness :
  _enqueue (lit "d")
    {| _job_queue := [lit "a"; lit "b"; lit "c"]; _processing := true |}
  = ([Reply queue_full_text],
     {| _job_queue := [lit "a"; lit "b"; lit "c"]; _processing := true |})
  /\ fst (_enqueue (lit "c")
            {| _job_queue := [lit "b"]; _processing := true |})
     = [Reply (queued_text 2); Put (lit "c")]
  /\ fst (_enqueue (lit "a") initial) = [Put (lit "a")].
Proof.
  split; [|split].
  - apply (proj1 (enqueue_admission (lit "d")
             {| _job_queue := [lit "a"; lit "b"; lit "c"]; _processing := true |})).
    apply Nat.le_refl.
  - rewrite (proj1 (proj2 (enqueue_admission (lit "c")
             {| _job_queue := [lit "b"]; _processing := true |}))).
    + reflexivity.
    + unfold qsize. simpl. lia.
    + right. reflexivity.
  - rewrite (proj1 (proj2 (proj2 (enqueue_admission (lit "a") initial))));
      reflexivity.
Defined.

(** C2, the claim as stated fails: the first job is taken by the worker,
    the queue is empty while it runs, and the second job is told position
    1, not 2. *)
Lemma second_job_position_counterexample :
  exists running,
    worker_get (snd (_enqueue (lit "first") initial)) = Some (lit "first", running)
    /\ _processing running = true
    /\ fst (_enqueue (lit "second") running)
         = [Reply (lit "Queued! Position: 1. I'll get to it soon."); Put (lit "second")]
    /\ fst (_enqueue (lit "second") running)
         <> [Reply (queued_text 2); Put (lit "second")].
Proof.
  eexists. split; [reflexivity|]. split; [reflexivity|].
  split; [reflexivity|]. discriminate.
Qed.

(* ================================================================== *)
(** * Duplicate detection *)
(* ================================================================== *)

Import PyExn Duplicate.

Section DuplicateFacts.

Lemma scan_results_cons : forall recipe_name r rs s,
  hit_name r = Some s ->
  scan_results recipe_name (r :: rs)
  = if str_eqb (norm_name s) (norm_name recipe_name)
    then Ret (Some (h_id r))
    else scan_results recipe_name rs.
Proof.
  intros recipe_name r rs s H. unfold hit_name in H.
  cbn [scan_results]. destruct (h_name r); try discriminate;
    injection H as <-; reflexivity.
Qed.

Lemma str_eqb_neq : forall a b, a <> b -> str_eqb a b = false.
Proof.
  intros a b N. destruct (str_eqb a b) eqn:K; [|reflexivity].
  apply str_eqb_eq in K. contradiction.
Qed.

Lemma scan_results_first : forall recipe_name before hit after,
  Forall (other_name recipe_name) before ->
  same_name recipe_name hit ->
  scan_results recipe_name (before ++ hit :: after) = Ret (Some (h_id hit)).
Proof.
  intros recipe_name before hit after F [s [Hs E]].
  induction F as [|r before [t [Ht N]] F IH].
  - rewrite app_nil_l, (@scan_results_cons _ _ _ _ Hs), E.
    rewrite (proj2 (str_eqb_eq _ _) eq_refl). reflexivity.
  - rewrite <- app_comm_cons, (@scan_results_cons _ _ _ _ Ht).
    rewrite (str_eqb_neq N). exact IH.
Qed.

Lemma scan_results_none : forall recipe_name results,
  Forall (other_name recipe_name) results ->
  scan_results recipe_name results = Ret None.
Proof.
  intros recipe_name results F.
  induction F as [|r results [t [Ht N]] F IH]; [reflexivity|].
  rewrite (@scan_results_cons _ _ _ _ Ht), (str_eqb_neq N). exact IH.
Qed.

End DuplicateFacts.

(** C8: [check_duplicate] returns the id of the first result whose name
    is the candidate name once both are stripped and put in lower case;
    ["  Chicken Soup "] and ["chicken soup"] are the same name in that
    sense; and it returns no id, and raises nothing, when the request or
    the decoding of the answer fails, when the status is not 200, and when
    no result has that name. *)
Theorem check_duplicate_first_match : forall recipe_name requests_get,
  (forall before hit after,
     requests_get recipe_name
       = Returns {| sr_status := 200; sr_results := Returns (before ++ hit :: after) |} ->
     Forall (other_name recipe_name) before ->
     same_name recipe_name hit ->
     check_duplicate recipe_name requests_get = h_id hit)
  /\ (forall msg,
        requests_get recipe_name = Throws msg ->
        check_duplicate recipe_name requests_get = None)
  /\ (forall status msg,
        requests_get recipe_name
          = Returns {| sr_status := status; sr_results := Throws msg |} ->
        check_duplicate recipe_name requests_get = None)
  /\ (forall status results,
        requests_get recipe_name
          = Returns {| sr_status := status; sr_results := results |} ->
        status <> 200%Z ->
        check_duplicate recipe_name requests_get = None)
  /\ (forall results,
        requests_get recipe_name
          = Returns {| sr_status := 200; sr_results := Returns results |} ->
        Forall (other_name recipe_name) results ->
        check_duplicate recipe_name requests_get = None)
  /\ norm_name (lit "  Chicken Soup ") = norm_name (lit "chicken soup").
Proof.
  intros recipe_name requests_get. repeat split.
  - intros before hit after E F S. unfold check_duplicate. rewrite E. simpl.
    rewrite (scan_results_first after F S). reflexivity.
  - intros msg E. unfold check_duplicate. rewrite E. reflexivity.
  - intros status msg E. unfold check_duplicate. rewrite E. simpl.
    destruct (status =? 200)%Z; reflexivity.
  - intros status results E N. unfold check_duplicate. rewrite E. simpl.
    apply Z.eqb_neq in N. rewrite N. reflexivity.
  - intros results E F. unfold check_duplicate. rewrite E. simpl.
    rewrite (scan_results_none F). reflexivity.
Qed.

Lemma check_duplicate_first_match_witness :
  check_duplicate (lit "  Chicken Soup ")
    (fun _ => Returns
       {| sr_status := 200;
          sr_results :=
            Returns ([{| h_name := NameStr (lit "Chicken Curry"); h_id := Some 7%Z |}]
                       ++ {| h_name := NameStr (lit "chicken soup"); h_id := Some 12%Z |}
                       :: [{| h_name := NameStr (lit "Chicken Soup"); h_id := Some 30%Z |}]) |})
  = Some 12%Z
  /\ check_duplicate (lit "Chicken Soup") (fun _ => Throws (lit "timed out")) = None.
Proof.
  split.
  - apply (proj1 (check_duplicate_first_match (lit "  Chicken Soup ") _)
             [{| h_name := NameStr (lit "Chicken Curry"); h_id := Some 7%Z |}]
             {| h_name := NameStr (lit "chicken soup"); h_id := Some 12%Z |}
             [{| h_name := NameStr (lit "Chicken Soup"); h_id := Some 30%Z |}]).
    + reflexivity.
    + constructor; [|constructor].
      exists (lit "Chicken Curry"). split; [reflexivity|]. discriminate.
    + exists (lit "chicken soup"). split; reflexivity.
  - apply (proj1 (proj2 (check_duplicate_first_match (lit "Chicken Soup") _))
             (lit "timed out")).
    reflexivity.
Defined.

(* ================================================================== *)
(** * The orchestrator never raises *)
(* ================================================================== *)

Import Orchestrator.

Section OrchestratorFacts.



Lemma behaves_weaken : forall (A : Type) (P : A -> Prop) (c : pyres A),
  behaves P c -> behaves (fun _ => True) c.
Proof. intros A P c H. destruct c as [a|[m|m]]; simpl in *; auto. Qed.










End OrchestratorFacts.



(** The run of the witness fails with the message of the downloader. *)
Lemma process_video_download_failure :
  process_video world_without_network demo_config None false
  = Ret (failure (lit "yt-dlp failed: ERROR: unable to download")).
Proof. reflexivity. Qed.

(* ================================================================== *)
(** * Durations *)
(* ================================================================== *)

Section DurationFacts.

(** The pattern [(\d+)X] for a letter [X]. *)
Variable X : ascii.
Hypothesis X_not_digit : is_digit X = false.


Let cap (n0 : nat) (s0 : str) (st' : mstate) : mstate :=
  {| pos := pos st'; rest := rest st';
     caps := (1, firstn (pos st' - n0) s0) :: caps st' |}.

Let after (n0 : nat) (s0 : str) (st' : mstate) : list mstate :=
  run (Cls (is_char X)) (cap n0 s0 st').













End DurationFacts.

Section DurationLaws.
Local Open Scope Z_scope.




End DurationLaws.



(* ================================================================== *)
(** * Ingredients: units and signs *)
(* ================================================================== *)

Import MoreProps.

Section IngredientFacts.

(** The three shapes of the result of [parse_ingredient_string]. *)
Lemma parse_ingredient_cases : forall s,
  let i := parse_ingredient_string s in
  (exists a u, i_amount i = _parse_amount a /\ i_unit i = Some u
               /\ is_known_unit (lower u) = true /\ i_no_amount i = false)
  \/ (exists a, i_amount i = _parse_amount a /\ i_unit i = None
                /\ i_no_amount i = false)
  \/ (i_amount i = PyInt0 /\ i_unit i = None /\ i_no_amount i = true).
Proof.
  intro s. unfold parse_ingredient_string.
  destruct (if contains (lit ", ") (strip s)
            then match split1 (lit ", ") (strip s) with
                 | [p0; p1] => (p0, p1)
                 | _ => (strip s, [])
                 end
            else (strip s, [])) as [s0 note].
  destruct (re_match unit_food_re s0) as [m|].
  - destruct (is_known_unit (lower (group 2 m))) eqn:K; cbn zeta.
    + left. exists (group 1 m), (group 2 m). rewrite K. repeat split; exact K.
    + right. left. exists (group 1 m). repeat split.
  - destruct (re_match food_re s0) as [m2|]; cbn zeta.
    + right. left. exists (group 1 m2). repeat split.
    + right. right. repeat split.
Qed.

Lemma fltb_zero_sign : forall x, fltb fzero x = true -> sign_ok x.
Proof.
  intros x. unfold fltb, SFltb, fzero.
  destruct x as [s|s| |s m e]; simpl; try discriminate;
    destruct s; simpl; try discriminate; reflexivity.
Qed.

Lemma fmul_sign : forall x y, sign_ok x -> sign_ok y -> sign_ok (fmul x y).
Proof.
  intros x y Hx Hy. unfold fmul, SFmul.
  destruct x as [sx|sx| |sx mx ex]; destruct y as [sy|sy| |sy my ey];
    simpl in *; subst; simpl; auto.
  apply binary_round_aux_sign.
Qed.

Lemma round2_sign : forall x, sign_ok x -> sign_ok (round2 x).
Proof.
  intros x H. destruct x as [s|s| |s m e]; try exact H.
  unfold sign_ok in H. subst s. unfold round2.
  match goal with
  | |- sign_ok (match ?h with Z0 => _ | Zpos _ => _ | Zneg _ => _ end) => destruct h
  end; try reflexivity.
  apply round_ratio_sign.
Qed.

Lemma int_truediv_sign : forall a b x,
  (0 < a)%Z -> (0 < b)%Z -> int_truediv a b = Some x -> sign_ok x.
Proof.
  intros a b x Ha Hb. unfold int_truediv.
  assert (E : (b =? 0)%Z = false) by (apply Z.eqb_neq; lia). rewrite E.
  assert (A : (a <? 0)%Z = false) by (apply Z.ltb_ge; lia).
  assert (B : (b <? 0)%Z = false) by (apply Z.ltb_ge; lia).
  rewrite A, B. simpl xorb.
  destruct (Z.abs a / Z.gcd a b)%Z; try (intro K; injection K as <-; reflexivity).
  destruct (Z.abs b / Z.gcd a b)%Z; try (intro K; injection K as <-; reflexivity).
  pose proof (round_ratio_sign p p0) as S.
  destruct (round_ratio false p p0); try discriminate;
    intro K; injection K as <-; exact S.
Qed.

Lemma rescale_never_negative : forall scale i,
  sign_ok scale -> never_negative (i_amount i) ->
  never_negative (i_amount (rescale scale i)).
Proof.
  intros scale i Hs Hi. unfold rescale.
  destruct (py_gt (i_amount i) PyInt0) eqn:G; [|exact Hi].
  simpl. apply sign_ok_never_negative. apply round2_sign.
  unfold mul_scale. apply fmul_sign; [|exact Hs].
  apply fltb_zero_sign. exact G.
Qed.

End IngredientFacts.

(** X1: a parsed ingredient has a unit only when the lower-cased middle
    token is in the vocabulary of units, and then it is not flagged;
    an ingredient flagged as having no amount has the quantity [0] and no
    unit. *)
Theorem ingredient_unit_and_flag : forall s,
  (forall u, i_unit (parse_ingredient_string s) = Some u ->
     is_known_unit (lower u) = true
     /\ i_no_amount (parse_ingredient_string s) = false)
  /\ (i_no_amount (parse_ingredient_string s) = true ->
        i_amount (parse_ingredient_string s) = PyInt0
        /\ i_unit (parse_ingredient_string s) = None).
Proof.
  intro s. pose proof (parse_ingredient_cases s) as C. cbv zeta in C.
  destruct C as [[a [u [Ha [Hu [K N]]]]]|[[a [Ha [Hu N]]]|[Ha [Hu N]]]]; split.
  - intros u' E. rewrite Hu in E. injection E as <-. split; assumption.
  - intro F. congruence.
  - intros u' E. congruence.
  - intro F. congruence.
  - intros u' E. congruence.
  - intros _. split; assumption.
Qed.

Lemma ingredient_unit_and_flag_witness :
  is_known_unit (lower (lit "Cups")) = true
  /\ i_amount (parse_ingredient_string (lit "salt to taste")) = PyInt0.
Proof.
  split.
  - apply (proj1 (ingredient_unit_and_flag (lit "2 Cups sugar")) (lit "Cups")).
    reflexivity.
  - apply (proj2 (ingredient_unit_and_flag (lit "salt to taste"))).
    reflexivity.
Defined.

(** X2: the quantity of a parsed ingredient is never negative, whatever
    the string: it compares [>= 0], or it is NaN. *)
Theorem ingredient_amount_never_negative : forall s,
  never_negative (i_amount (parse_ingredient_string s)).
Proof.
  intro s. pose proof (parse_ingredient_cases s) as C. cbv zeta in C.
  destruct C as [[a [u [Ha _]]]|[[a [Ha _]]|[Ha _]]]; rewrite Ha;
    try apply parse_amount_never_negative. apply never_negative_int0.
Qed.

(** X3: without an override, and with an override that is not negative,
    no quantity of a converted recipe is negative. *)
Theorem converted_amounts_never_negative : forall r ov t,
  match ov with Some z => (0 <= z)%Z | None => True end ->
  jsonld_to_tandoor r ov = Some t ->
  Forall (fun i => never_negative (i_amount i)) (ingredients_of t).
Proof.
  intros r ov t Hov E.
  assert (P : Forall (fun i => never_negative (i_amount i)) (parsed_ingredients r)).
  { unfold parsed_ingredients. apply Forall_map. apply Forall_forall.
    intros s _. apply ingredient_amount_never_negative. }
  destruct (must_rescale ov (original_servings_of r)) eqn:M.
  - destruct (int_truediv (get_or 0%Z ov) (original_servings_of r)) as [scale|] eqn:D.
    + destruct (jsonld_rescale r ov M D) as [t' [E' [I _]]].
      rewrite E in E'. injection E' as <-. rewrite I.
      assert (S : sign_ok scale).
      { unfold must_rescale in M.
        apply andb_true_iff in M. destruct M as [M _].
        apply andb_true_iff in M. destruct M as [T L].
        apply Z.ltb_lt in L.
        destruct ov as [z|]; [|discriminate]. simpl in *.
        apply negb_true_iff, Z.eqb_neq in T.
        apply (@int_truediv_sign z (original_servings_of r)); try assumption. lia. }
      apply Forall_map. eapply Forall_impl; [|exact P].
      simpl. intros i Hi. apply rescale_never_negative; assumption.
    + rewrite (jsonld_overflow r ov M D) in E. discriminate.
  - destruct (jsonld_no_rescale r ov M) as [t' [E' [I _]]].
    rewrite E in E'. injection E' as <-. rewrite I. exact P.
Qed.

Lemma converted_amounts_never_negative_witness :
  exists t,
    jsonld_to_tandoor (recipe_with "4" ["200 g flour"; "a pinch of salt"]%string)
      (Some 6%Z) = Some t
    /\ Forall (fun i => never_negative (i_amount i)) (ingredients_of t).
Proof.
  eexists. split; [reflexivity|].
  apply (@converted_amounts_never_negative
           (recipe_with "4" ["200 g flour"; "a pinch of salt"]%string) (Some 6%Z)).
  - simpl. lia.
  - reflexivity.
Defined.

(** A negative override is accepted, and makes the quantities negative. *)
Lemma negative_override_negative_amount :
  exists t,
    jsonld_to_tandoor (recipe_with "4" ["200 g flour"]%string) (Some (-2)%Z) = Some t
    /\ map i_amount (ingredients_of t)
       = [PyFloat (S754_finite true 7036874417766400 (-46))]
    /\ t_servings t = (-2)%Z.
Proof. eexists. split; [reflexivity|]. split; reflexivity. Qed.

(* ================================================================== *)
(** * Facts about the matcher *)
(* ================================================================== *)

Section MatcherFacts.

Lemma rep0_consumed : forall p s n cs st',
  In st' (rep0 p n s cs) ->
  exists taken,
    s = taken ++ rest st' /\ pos st' = n + length taken
    /\ Forall (fun c => p c = true) taken /\ caps st' = cs.
Proof.
  intros p. induction s as [|c s IH]; intros n cs st' H; simpl in H.
  - destruct H as [<-|[]]. exists []. simpl. rewrite Nat.add_0_r. auto.
  - apply in_app_or in H. destruct H as [H|[<-|[]]].
    + destruct (p c) eqn:E; [|destruct H].
      destruct (IH _ _ _ H) as [taken [E1 [E2 [E3 E4]]]].
      exists (c :: taken). simpl. rewrite E2, <- E1.
      repeat split; auto; try lia.
    + exists []. simpl. rewrite Nat.add_0_r. auto.
Qed.


Lemma class_only_run : forall P r,
  class_only P r ->
  forall st st', In st' (run r st) ->
  exists taken,
    rest st = taken ++ rest st' /\ pos st' = pos st + length taken
    /\ Forall P taken /\ caps st' = caps st.
Proof.
  intros P r C. induction C as [p Hp|p Hp|p Hp|r1 r2 C1 IH1 C2 IH2|r C IH];
    intros st st' H; cbn [run] in H.
  - destruct (rest st) as [|c s] eqn:E; [destruct H|].
    destruct (p c) eqn:Ec; [|destruct H]. destruct H as [<-|[]].
    exists [c]. simpl. repeat split; auto; try lia.
  - destruct (rep0_consumed _ _ _ _ _ H) as [taken [E1 [E2 [E3 E4]]]].
    exists taken. repeat split; auto.
    eapply Forall_impl; [|exact E3]. auto.
  - destruct (rest st) as [|c s] eqn:E; [destruct H|].
    destruct (p c) eqn:Ec; [|destruct H].
    destruct (rep0_consumed _ _ _ _ _ H) as [taken [E1 [E2 [E3 E4]]]].
    exists (c :: taken). simpl. rewrite <- E1, E2. repeat split; auto; try lia.
    constructor; [auto|]. eapply Forall_impl; [|exact E3]. auto.
  - apply in_flat_map in H. destruct H as [st1 [H1 H2]].
    destruct (IH1 _ _ H1) as [t1 [A1 [A2 [A3 A4]]]].
    destruct (IH2 _ _ H2) as [t2 [B1 [B2 [B3 B4]]]].
    exists (t1 ++ t2). rewrite <- app_assoc, <- B1, length_app.
    repeat split; auto; try lia; try congruence. apply Forall_app; auto.
  - apply in_app_or in H. destruct H as [H|[<-|[]]].
    + apply (IH _ _ H).
    + exists []. simpl. rewrite Nat.add_0_r. auto.
Qed.

Lemma captures_only_run : forall P r,
  captures_only P r ->
  forall st st', In st' (run r st) -> caps_in P (caps st) -> caps_in P (caps st').
Proof.
  intros P r C.
  induction C as [p|p|p| | |r1 r2 C1 IH1 C2 IH2|r C IH|i r C];
    intros st st' H K; cbn [run] in H.
  - destruct (rest st) as [|c s]; [destruct H|].
    destruct (p c); [|destruct H]. destruct H as [<-|[]]. exact K.
  - destruct (rep0_consumed _ _ _ _ _ H) as [_ [_ [_ [_ E]]]]. rewrite E. exact K.
  - destruct (rest st) as [|c s]; [destruct H|].
    destruct (p c); [|destruct H].
    destruct (rep0_consumed _ _ _ _ _ H) as [_ [_ [_ [_ E]]]]. rewrite E. exact K.
  - destruct (Nat.eqb (pos st) 0); [|destruct H]. destruct H as [<-|[]]. exact K.
  - destruct (rest st) as [|c [|c2 s]]; try destruct H as [<-|[]]; try exact K.
    + destruct (char_eqb c newline); [|destruct H]. destruct H as [<-|[]]. exact K.
    + destruct H.
  - apply in_flat_map in H. destruct H as [st1 [H1 H2]].
    apply (IH2 _ _ H2). apply (IH1 _ _ H1). exact K.
  - apply in_app_or in H. destruct H as [H|[<-|[]]]; [apply (IH _ _ H K) | exact K].
  - apply in_map_iff in H. destruct H as [st2 [<- H2]].
    destruct (class_only_run C _ _ H2) as [taken [E1 [E2 [E3 E4]]]].
    cbn [caps]. constructor.
    + cbn [snd]. rewrite E1, E2.
      replace (pos st + length taken - pos st) with (length taken) by lia.
      rewrite firstn_app, firstn_all, Nat.sub_diag. cbn [firstn].
      rewrite app_nil_r. exact E3.
    + rewrite E4. exact K.
Qed.

Lemma lookup_caps_in : forall P i cs, caps_in P cs -> Forall P (lookup i cs).
Proof.
  intros P i. induction cs as [|[j v] cs IH]; intro K; simpl.
  - constructor.
  - inversion K as [|? ? Hv K']. subst.
    destruct (Nat.eqb i j); [exact Hv | apply IH; exact K'].
Qed.

Lemma run_at_group : forall P r n s m i,
  captures_only P r -> run_at r n s = Some m -> Forall P (group i m).
Proof.
  intros P r n s m i C H. unfold run_at in H.
  destruct (run r {| pos := n; rest := s; caps := [] |}) as [|x l] eqn:E;
    [discriminate|]. injection H as ->.
  apply lookup_caps_in.
  apply (captures_only_run C {| pos := n; rest := s; caps := [] |}).
  - rewrite E. left. reflexivity.
  - constructor.
Qed.

Lemma search_from_group : forall P r s n m i,
  captures_only P r -> search_from r n s = Some m -> Forall P (group i m).
Proof.
  intros P r. induction s as [|c s IH]; intros n m i C H; cbn [search_from] in H.
  - destruct (run_at r n []) eqn:E; [|discriminate]. injection H as ->.
    eapply run_at_group; eauto.
  - destruct (run_at r n (c :: s)) eqn:E.
    + injection H as ->. eapply run_at_group; eauto.
    + eapply IH; eauto.
Qed.

Lemma digit_val_range : forall c, is_digit c = true -> (0 <= digit_val c <= 9)%Z.
Proof.
  intros c H. unfold is_digit, in_range in H.
  apply andb_true_iff in H. destruct H as [H1 H2].
  apply N.leb_le in H1. apply N.leb_le in H2. unfold digit_val.
  lia.
Qed.

Lemma int_of_digits_nonneg : forall s,
  Forall (fun c => is_digit c = true) s -> (0 <= int_of_digits s)%Z.
Proof.
  intros s F. unfold int_of_digits.
  assert (G : forall acc, (0 <= acc)%Z ->
            (0 <= fold_left (fun a c => (10 * a + digit_val c)%Z) s acc)%Z).
  { induction F as [|c s Hc F IH]; intros acc Ha; cbn [fold_left]; [exact Ha|].
    apply IH. pose proof (digit_val_range c Hc). lia. }
  apply G. lia.
Qed.

End MatcherFacts.

(* ================================================================== *)
(** * Conversion: keywords, description, servings and times *)
(* ================================================================== *)

Section ConversionMore.

Lemma fold_left_invariant : forall (A B : Type) (Q : A -> Prop) (f : A -> B -> A) l a,
  Q a -> (forall a b, Q a -> Q (f a b)) -> Q (fold_left f l a).
Proof.
  intros A B Q f. induction l as [|b l IH]; intros a Ha Hf; simpl; auto.
Qed.

Lemma strip_prefix_self : forall p r, strip_prefix p (p ++ r) = Some r.
Proof.
  induction p as [|a p IH]; intro r; simpl; [reflexivity|].
  rewrite char_eqb_refl. apply IH.
Qed.

Lemma contains_middle : forall sep a b, contains sep (a ++ sep ++ b) = true.
Proof.
  intros sep a b. unfold contains.
  assert (H : find_sep sep (a ++ sep ++ b) <> None).
  { induction a as [|c a IH].
    - simpl app. destruct (sep ++ b) eqn:E.
      + destruct sep; [|discriminate]. simpl. discriminate.
      + simpl. rewrite <- E, strip_prefix_self. discriminate.
    - simpl app. simpl find_sep.
      destruct (strip_prefix sep (c :: a ++ sep ++ b)); [discriminate|].
      destruct (find_sep sep (a ++ sep ++ b)) as [[x y]|]; [discriminate|].
      exact IH. }
  destruct (find_sep sep (a ++ sep ++ b)); [reflexivity|congruence].
Qed.

Lemma strip_not_empty : forall s, negb (is_empty (strip s)) = true -> strip s <> [].
Proof. intros s H E. rewrite E in H. discriminate. Qed.




Lemma hours_re_captures : captures_only (fun c => is_digit c = true) hours_re.
Proof. apply cap_cat; [apply cap_grp, co_rep1; auto | apply cap_cls]. Qed.

Lemma mins_re_captures : captures_only (fun c => is_digit c = true) mins_re.
Proof. apply cap_cat; [apply cap_grp, co_rep1; auto | apply cap_cls]. Qed.

Lemma duration_nonneg : forall iso, (0 <= parse_iso_duration_minutes iso)%Z.
Proof.
  intro iso. unfold parse_iso_duration_minutes.
  destruct (is_empty iso); [lia|].
  assert (H : forall r m, captures_only (fun c => is_digit c = true) r ->
            re_search r iso = Some m -> (0 <= int_of_digits (group 1 m))%Z).
  { intros r m C E. apply int_of_digits_nonneg.
    apply (@search_from_group _ r iso 0 m 1 C E). }
  destruct (re_search hours_re iso) as [mh|] eqn:Eh;
    destruct (re_search mins_re iso) as [mm|] eqn:Em;
    try pose proof (H _ _ hours_re_captures Eh);
    try pose proof (H _ _ mins_re_captures Em); lia.
Qed.


End ConversionMore.

(** X4: the keywords of a converted recipe are stripped and not empty,
    and there are at most two more of them than keyword items in the
    recipe. *)
Theorem keywords_stripped_nonempty : forall r,
  Forall (fun k => k <> [] /\ strip k = k) (keywords_of r)
  /\ length (keywords_of r) <= length (get_or [] (r_keywords r)) + 2.
Proof.
  intro r. unfold keywords_of.
  set (step1 := fun (keywords : list str) (kw : option str) =>
         match kw with
         | Some k => if negb (is_empty (strip k)) then keywords ++ [strip k] else keywords
         | None => keywords
         end).
  set (step2 := fun (keywords : list str) (val : str) =>
         if (negb (is_empty val) && negb (is_empty (strip val)))%bool
         then keywords ++ [strip val] else keywords).
  set (Q := fun l : list str => Forall (fun k => k <> [] /\ strip k = k) l).
  assert (Q1 : forall a b, Q a -> Q (step1 a b)).
  { intros a [k|] Ha; unfold step1; [|exact Ha].
    destruct (negb (is_empty (strip k))) eqn:E; [|exact Ha].
    apply Forall_app. split; [exact Ha|]. constructor; [|constructor].
    split; [apply strip_not_empty; exact E | apply strip_idem]. }
  assert (Q2 : forall a b, Q a -> Q (step2 a b)).
  { intros a val Ha. unfold step2.
    destruct (negb (is_empty val) && negb (is_empty (strip val)))%bool eqn:E; [|exact Ha].
    apply andb_true_iff in E. destruct E as [_ E].
    apply Forall_app. split; [exact Ha|]. constructor; [|constructor].
    split; [apply strip_not_empty; exact E | apply strip_idem]. }
  assert (L1 : forall l a, length (fold_left step1 l a) <= length a + length l).
  { induction l as [|b l IH]; intro a; simpl; [lia|].
    specialize (IH (step1 a b)).
    assert (length (step1 a b) <= S (length a)).
    { unfold step1. destruct b as [k|]; [|lia].
      destruct (negb (is_empty (strip k))); [rewrite length_app; simpl|]; lia. }
    lia. }
  assert (L2 : forall l a, length (fold_left step2 l a) <= length a + length l).
  { induction l as [|b l IH]; intro a; simpl; [lia|].
    specialize (IH (step2 a b)).
    assert (length (step2 a b) <= S (length a)).
    { unfold step2.
      destruct (negb (is_empty b) && negb (is_empty (strip b)))%bool;
        [rewrite length_app; simpl|]; lia. }
    lia. }
  split.
  - apply (@fold_left_invariant _ _ Q step2); [|exact Q2].
    apply (@fold_left_invariant _ _ Q step1); [constructor|exact Q1].
  - pose proof (L2 [get_or [] (r_recipeCuisine r); get_or [] (r_recipeCategory r)]
                  (fold_left step1 (get_or [] (r_keywords r)) [])) as A.
    pose proof (L1 (get_or [] (r_keywords r)) []) as B.
    simpl in A, B. simpl. lia.
Qed.

(** X5: the description of a converted recipe ends with the description
    of the recipe, and names the author whenever the recipe has one. *)
Theorem description_names_author : forall r,
  (exists by_line, description_of r = by_line ++ get_or [] (r_description r))
  /\ (author_name_of r <> [] -> contains (author_name_of r) (description_of r) = true).
Proof.
  intro r.
  assert (U : description_of r
    = let desc := get_or [] (r_description r) in
      if (negb (is_empty (author_name_of r))
          && negb (contains (author_name_of r) desc))%bool
      then if negb (is_empty desc)
           then lit "By " ++ author_name_of r ++ lit ". " ++ desc
           else lit "By " ++ author_name_of r
      else desc) by reflexivity.
  rewrite U. clear U. cbv zeta.
  generalize (get_or [] (r_description r)). intro desc.
  destruct (author_name_of r) as [|c a].
  - simpl. split; [exists []; reflexivity | congruence].
  - cbn [is_empty negb andb].
    destruct (contains (c :: a) desc) eqn:C; cbn [negb].
    + split; [exists []; reflexivity | intros _; exact C].
    + destruct desc as [|d desc']; cbn [is_empty negb].
      * split; [exists (lit "By " ++ c :: a); rewrite app_nil_r; reflexivity|].
        intros _.
        replace (lit "By " ++ c :: a) with (lit "By " ++ (c :: a) ++ [])
          by (rewrite app_nil_r; reflexivity).
        apply contains_middle.
      * split.
        -- exists (lit "By " ++ (c :: a) ++ lit ". "). rewrite <- !app_assoc. reflexivity.
        -- intros _. apply contains_middle.
Qed.

Lemma description_names_author_witness :
  contains (lit "Ana")
    (description_of
       {| r_name := None; r_description := Some (lit "A quick soup.");
          r_author := Some (AuthorDict (Some (lit "Ana"))); r_url := None;
          r_recipeCategory := None; r_recipeCuisine := None;
          r_recipeYield := None; r_prepTime := None; r_cookTime := None;
          r_recipeIngredient := None; r_recipeInstructions := None;
          r_keywords := None |}) = true.
Proof.
  apply (proj2 (description_names_author
       {| r_name := None; r_description := Some (lit "A quick soup.");
          r_author := Some (AuthorDict (Some (lit "Ana"))); r_url := None;
          r_recipeCategory := None; r_recipeCuisine := None;
          r_recipeYield := None; r_prepTime := None; r_cookTime := None;
          r_recipeIngredient := None; r_recipeInstructions := None;
          r_keywords := None |})).
  discriminate.
Defined.



(** X7: the minutes read from a duration are never negative, whatever the
    string, and so are the working and waiting times of a converted
    recipe. *)
Theorem durations_never_negative :
  (forall iso, (0 <= parse_iso_duration_minutes iso)%Z)
  /\ (forall r ov t, jsonld_to_tandoor r ov = Some t ->
        (0 <= t_working_time t)%Z /\ (0 <= t_waiting_time t)%Z).
Proof.
  split; [apply duration_nonneg|].
  intros r ov t E. unfold jsonld_to_tandoor in E.
  destruct (if must_rescale ov (original_servings_of r)
            then match int_truediv (get_or 0%Z ov) (original_servings_of r) with
                 | Some scale => Some (map (rescale scale)
                     (map parse_ingredient_string (get_or [] (r_recipeIngredient r))))
                 | None => None
                 end
            else Some (map parse_ingredient_string (get_or [] (r_recipeIngredient r))));
    [|discriminate].
  injection E as <-. cbn [t_working_time t_waiting_time].
  split; apply duration_nonneg.
Qed.

Lemma durations_never_negative_witness :
  exists t,
    jsonld_to_tandoor (recipe_yielding None) None = Some t
    /\ (0 <= t_working_time t)%Z.
Proof.
  eexists. split; [reflexivity|].
  apply (proj2 durations_never_negative (recipe_yielding None) None).
  reflexivity.
Defined.

(* ================================================================== *)
(** * Durations: what is ignored and what is mistaken *)
(* ================================================================== *)

Section DurationEdges.






End DurationEdges.





(* ================================================================== *)
(** * Instruction sections: blank texts, headers and the preview *)
(* ================================================================== *)

Section SectionFacts.

Lemma lstrip_head : forall s c t, lstrip s = c :: t -> is_space c = false.
Proof.
  induction s as [|x s IH]; intros c t H; simpl in H; [discriminate|].
  destruct (is_space x) eqn:E; [eapply IH; eauto|].
  injection H as <- <-. exact E.
Qed.

Lemma rstrip_head : forall s c t, rstrip s = c :: t -> exists t', s = c :: t'.
Proof.
  intros [|x s] c t H; simpl in H; [discriminate|].
  destruct (is_space x && is_empty (rstrip s))%bool; [discriminate|].
  injection H as <- <-. eexists. reflexivity.
Qed.

Lemma strip_head : forall s c t, strip s = c :: t -> is_space c = false.
Proof.
  intros s c t H. unfold strip in H.
  destruct (rstrip_head _ H) as [t' E]. eapply lstrip_head; eauto.
Qed.

Lemma strip_of_stripped_head : forall c t, is_space c = false -> strip (c :: t) <> [].
Proof.
  intros c t H. unfold strip. simpl. rewrite H. simpl. rewrite H. simpl. discriminate.
Qed.





(** The loop of [_split_instruction_sections] as a filter and a map. *)
Lemma sections_loop : forall parts acc,
  fold_left
    (fun sections part =>
       let part := strip part in
       if is_empty part then sections
       else
         let lines := split1 [newline] part in
         let header := strip (hd [] lines) in
         let body :=
           match lines with
           | _ :: l1 :: _ => strip l1
           | _ => []
           end in
         sections ++ [(header, body)])
    parts acc
  = acc ++ map section_of
             (map strip (filter (fun s => negb (is_empty (strip s))) parts)).
Proof.
  induction parts as [|p parts IH]; intro acc; simpl.
  - rewrite app_nil_r. reflexivity.
  - rewrite IH. destruct (is_empty (strip p)); simpl; [reflexivity|].
    rewrite <- app_assoc. reflexivity.
Qed.

Lemma split_sections_unfold : forall c text,
  _split_instruction_sections (c :: text)
  = match map section_of
            (map strip (filter (fun s => negb (is_empty (strip s)))
                          (split (lit "## ") (c :: text)))) with
    | [] => if negb (is_empty (strip (c :: text)))
            then [(lit "Instructions", strip (c :: text))] else []
    | x :: l => x :: l
    end.
Proof.
  intros c text. unfold _split_instruction_sections. cbn [is_empty].
  rewrite sections_loop. rewrite app_nil_l.
  destruct (map section_of _); reflexivity.
Qed.

Lemma section_of_shape : forall part,
  strip part = part -> part <> [] ->
  fst (section_of part) <> []
  /\ strip (fst (section_of part)) = fst (section_of part)
  /\ ~ In newline (fst (section_of part))
  /\ strip (snd (section_of part)) = snd (section_of part).
Proof.
  intros part S N. destruct part as [|c t]; [congruence|].
  assert (Hc : is_space c = false) by (eapply strip_head; eauto).
  unfold section_of, split1.
  destruct (find_sep [newline] (c :: t)) as [[b a]|] eqn:F; cbn [hd fst snd].
  - pose proof (find_sep_app _ _ F) as E.
    pose proof (find_sep_char_before _ _ F) as Nb.
    destruct b as [|x b].
    + simpl in E. injection E as -> _. discriminate Hc.
    + simpl in E. injection E as <- _.
      repeat split.
      * apply strip_of_stripped_head. exact Hc.
      * apply strip_idem.
      * intro K. apply Nb. apply In_strip. exact K.
      * apply strip_idem.
  - repeat split.
    + rewrite S. discriminate.
    + apply strip_idem.
    + rewrite S. apply contains_char_false. unfold contains. rewrite F. reflexivity.
Qed.

End SectionFacts.



(** X11: every section has a header that is not empty, is stripped and
    holds no newline, and a body that is stripped. *)
Theorem sections_well_formed : forall text,
  Forall (fun hb =>
            fst hb <> [] /\ strip (fst hb) = fst hb
            /\ ~ In newline (fst hb) /\ strip (snd hb) = snd hb)
    (_split_instruction_sections text).
Proof.
  intros [|c text]; [constructor|].
  rewrite split_sections_unfold.
  assert (F : Forall (fun hb =>
            fst hb <> [] /\ strip (fst hb) = fst hb
            /\ ~ In newline (fst hb) /\ strip (snd hb) = snd hb)
            (map section_of
               (map strip (filter (fun s => negb (is_empty (strip s)))
                             (split (lit "## ") (c :: text)))))).
  { apply Forall_map. apply Forall_map. apply Forall_forall.
    intros p Hp. apply filter_In in Hp. destruct Hp as [_ Hp].
    apply section_of_shape; [apply strip_idem | apply strip_not_empty; exact Hp]. }
  destruct (map section_of _) as [|x l]; [|exact F].
  destruct (negb (is_empty (strip (c :: text)))); constructor; [|constructor].
  cbn [fst snd]. repeat split.
  - discriminate.
  - cbn. intuition discriminate.
  - apply strip_idem.
Qed.

(** X12: the steps of the preview are the sections of the conversion,
    with the body shortened, except for a text that is not blank and made
    of markers only: the preview shows no step, and the conversion makes
    the section titled "Instructions". *)
Theorem preview_shows_converted_sections : forall text,
  Cli.preview_steps text
    = map (fun hb => (fst hb, Cli.preview_text_of (snd hb)))
        (_split_instruction_sections text)
  \/ (Cli.preview_steps text = []
      /\ _split_instruction_sections text = [(lit "Instructions", strip text)]).
Proof.
  intro text.
  assert (P : Cli.preview_steps text
    = map (fun hb => (fst hb, Cli.preview_text_of (snd hb)))
        (map section_of
           (map strip (filter (fun s => negb (is_empty (strip s)))
                         (split (lit "## ") text))))).
  { unfold Cli.preview_steps. rewrite !map_map. reflexivity. }
  destruct text as [|c text]; [left; reflexivity|].
  rewrite P, split_sections_unfold.
  destruct (map section_of _) as [|x l]; [|left; reflexivity].
  destruct (negb (is_empty (strip (c :: text)))).
  - right. split; reflexivity.
  - left. reflexivity.
Qed.

(** The text ["## "] is such a text. *)
Lemma preview_misses_synthetic_section :
  Cli.preview_steps (lit "## ") = []
  /\ _split_instruction_sections (lit "## ") = [(lit "Instructions", lit "##")].
Proof. split; reflexivity. Qed.

(* ================================================================== *)
(** * The queue over time *)
(* ================================================================== *)

Import Session.

Section SessionFacts.

Lemma enqueue_qsize : forall url st,
  qsize st <= 3 -> qsize (snd (_enqueue url st)) <= 3.
Proof.
  intros url st H. unfold _enqueue, full, MAX_QUEUE.
  destruct (Nat.leb 3 (qsize st)) eqn:F; [exact H|].
  apply Nat.leb_gt in F. unfold qsize in *. cbn [snd _job_queue].
  rewrite length_app. simpl. lia.
Qed.

Lemma act_qsize : forall a st st',
  act a st = Some st' -> qsize st <= 3 -> qsize st' <= 3.
Proof.
  intros a st st' E H. destruct a as [url| |]; simpl in E.
  - injection E as <-. apply enqueue_qsize. exact H.
  - destruct (_processing st); [discriminate|].
    unfold worker_get in E. unfold qsize in *.
    destruct (_job_queue st) as [|u q] eqn:Q; [discriminate|].
    injection E as <-. simpl in *. clear Q. lia.
  - destruct (_processing st); [|discriminate]. injection E as <-. exact H.
Qed.

Lemma record_action_order : forall a h h',
  record_action a h = Some h' ->
  admitted h = taken h ++ _job_queue (now h) ->
  admitted h' = taken h' ++ _job_queue (now h').
Proof.
  intros a h h' E H. unfold record_action in E.
  destruct (act a (now h)) as [st'|] eqn:A; [|discriminate].
  injection E as <-. cbn [admitted taken now].
  destruct a as [url| |]; simpl in A.
  - injection A as <-. unfold _enqueue.
    destruct (full (now h)); cbn [snd _job_queue]; [exact H|].
    rewrite H, app_assoc. reflexivity.
  - destruct (_processing (now h)); [discriminate|].
    unfold worker_get in *.
    destruct (_job_queue (now h)) as [|u q] eqn:Q; [discriminate|].
    injection A as <-. cbn [_job_queue]. rewrite H, <- app_assoc. reflexivity.
  - destruct (_processing (now h)); [|discriminate].
    injection A as <-. exact H.
Qed.

Lemma play_invariant : forall (Q : history -> Prop),
  (forall a h h', record_action a h = Some h' -> Q h -> Q h') ->
  forall actions h h', play actions h = Some h' -> Q h -> Q h'.
Proof.
  intros Q Hstep. induction actions as [|a actions IH]; intros h h' E H; simpl in E.
  - injection E as <-. exact H.
  - destruct (record_action a h) as [h1|] eqn:R; [|discriminate].
    apply (IH h1 h' E). apply (Hstep a h h1 R H).
Qed.

End SessionFacts.

(** X13: whatever callers and the worker do, and in whatever order, the
    queue never holds more than 3 pending jobs. *)
Theorem queue_never_exceeds_capacity : forall actions h,
  play actions start = Some h -> qsize (now h) <= 3.
Proof.
  intros actions h E.
  apply (play_invariant (fun h => qsize (now h) <= 3)) with (actions := actions) (h := start).
  - intros a h0 h1 R H. unfold record_action in R.
    destruct (act a (now h0)) as [st'|] eqn:A; [|discriminate].
    injection R as <-. cbn [now]. eapply act_qsize; eauto.
  - exact E.
  - apply Nat.le_0_l.
Qed.

Lemma queue_never_exceeds_capacity_witness :
  exists h,
    play [Submit (lit "a"); Submit (lit "b"); Take; Submit (lit "c");
          Submit (lit "d"); Submit (lit "e"); Finish] start = Some h
    /\ qsize (now h) <= 3.
Proof.
  eexists. split; [vm_compute; reflexivity|].
  apply (@queue_never_exceeds_capacity
           [Submit (lit "a"); Submit (lit "b"); Take; Submit (lit "c");
            Submit (lit "d"); Submit (lit "e"); Finish]).
  vm_compute. reflexivity.
Defined.

(** X14: jobs are taken in the order in which they were admitted, none is
    lost and none is taken twice: at any time the admitted jobs are the
    jobs taken so far followed by the pending ones; when the queue is
    empty, every admitted job has been taken. *)
Theorem jobs_taken_in_admission_order : forall actions h,
  play actions start = Some h ->
  admitted h = taken h ++ _job_queue (now h)
  /\ (_job_queue (now h) = [] -> taken h = admitted h).
Proof.
  intros actions h E.
  assert (A : admitted h = taken h ++ _job_queue (now h)).
  { apply (play_invariant (fun h => admitted h = taken h ++ _job_queue (now h)))
      with (actions := actions) (h := start).
    - intros a h0 h1 R H. eapply record_action_order; eauto.
    - exact E.
    - reflexivity. }
  split; [exact A|]. intro Q. rewrite A, Q, app_nil_r. reflexivity.
Qed.

Lemma jobs_taken_in_admission_order_witness :
  exists h,
    play [Submit (lit "a"); Submit (lit "b"); Take; Finish; Take; Finish] start = Some h
    /\ taken h = [lit "a"; lit "b"]
    /\ admitted h = taken h ++ _job_queue (now h).
Proof.
  eexists. split; [vm_compute; reflexivity|]. split; [reflexivity|].
  apply (@jobs_taken_in_admission_order
           [Submit (lit "a"); Submit (lit "b"); Take; Finish; Take; Finish]).
  vm_compute. reflexivity.
Defined.



(* ================================================================== *)
(** * The transcript cache *)
(* ================================================================== *)

Import Cache.

Section CacheFacts.

Let wd (c : ascii) : Prop := is_word_or_dash c = true.

Lemma digit_is_word_or_dash : forall c, is_digit c = true -> is_word_or_dash c = true.
Proof.
  intros c H. unfold is_word_or_dash, is_word.
  change (in_range 48 57 c) with (is_digit c). rewrite H. reflexivity.
Qed.

Lemma lit_re_captures : forall P l, captures_only P (lit_re l).
Proof.
  intros P. induction l as [|c l IH]; [apply cap_rep0|].
  destruct l as [|c' l]; [apply cap_cls|].
  change (lit_re (c :: c' :: l)) with (Cls (is_char c) +++ lit_re (c' :: l)).
  apply cap_cat; [apply cap_cls | exact IH].
Qed.

Lemma cls_times_class_only : forall (P : ascii -> Prop) p n,
  (forall c, p c = true -> P c) -> class_only P (cls_times n p).
Proof.
  intros P p n H. induction n as [|n IH]; [apply co_rep0; discriminate|].
  destruct n as [|n]; [apply co_cls; exact H|].
  change (cls_times (S (S n)) p) with (Cls p +++ cls_times (S n) p).
  apply co_cat; [apply co_cls; exact H | exact IH].
Qed.

Lemma youtube_captures : Forall (captures_only wd) youtube_res.
Proof.
  unfold youtube_res. apply Forall_map. apply Forall_forall. intros a _.
  apply cap_cat; [apply lit_re_captures|].
  apply cap_grp. apply cls_times_class_only. auto.
Qed.

Lemma instagram_captures : Forall (captures_only wd) instagram_res.
Proof.
  unfold instagram_res. apply Forall_map. apply Forall_forall. intros a _.
  apply cap_cat; [apply lit_re_captures|].
  apply cap_grp. apply co_rep1. auto.
Qed.

Lemma tiktok_captures : captures_only wd tiktok_re.
Proof.
  unfold tiktok_re.
  apply cap_cat; [apply lit_re_captures|].
  apply cap_cat; [apply cap_rep0|].
  apply cap_cat; [apply lit_re_captures|].
  apply cap_grp. apply co_rep1. intros c H. apply digit_is_word_or_dash. exact H.
Qed.

Lemma first_alt_group : forall P rs n s m i,
  Forall (captures_only P) rs -> first_alt rs n s = Some m -> Forall P (group i m).
Proof.
  intros P. induction rs as [|r rs IH]; intros n s m i F H; simpl in H; [discriminate|].
  inversion F as [|? ? Hr Hrs]. subst.
  destruct (run_at r n s) eqn:E.
  - injection H as ->. eapply run_at_group; eauto.
  - eapply IH; eauto.
Qed.

Lemma search_alt_group : forall P rs s n m i,
  Forall (captures_only P) rs -> search_alt_from rs n s = Some m -> Forall P (group i m).
Proof.
  intros P rs. induction s as [|c s IH]; intros n m i F H; cbn [search_alt_from] in H.
  - destruct (first_alt rs n []) eqn:E; [|discriminate]. injection H as ->.
    eapply first_alt_group; eauto.
  - destruct (first_alt rs n (c :: s)) eqn:E.
    + injection H as ->. eapply first_alt_group; eauto.
    + eapply IH; eauto.
Qed.

(** A match of a pattern that ends in [[\w-]{11}] captures a group that is
    not empty. *)
Lemma youtube_group_not_empty : forall r n s m,
  In r youtube_res -> run_at r n s = Some m -> group 1 m <> [].
Proof.
  intros r n s m Hr H. unfold youtube_res in Hr. apply in_map_iff in Hr.
  destruct Hr as [a [<- _]]. unfold run_at in H.
  destruct (run _ _) as [|x l] eqn:E; [discriminate|]. injection H as ->.
  assert (Hin : In m (run (lit_re (lit a) +++ Grp 1 (cls_times 11 is_word_or_dash))
                        {| pos := n; rest := s; caps := [] |})).
  { rewrite E. left. reflexivity. }
  cbn [run] in Hin. apply in_flat_map in Hin. destruct Hin as [st1 [_ H1]].
  apply in_map_iff in H1. destruct H1 as [st2 [<- H2]].
  change (cls_times 11 is_word_or_dash)
    with (Cls is_word_or_dash +++ cls_times 10 is_word_or_dash) in H2.
  cbn [run] in H2. apply in_flat_map in H2. destruct H2 as [st3 [H3 H4]].
  destruct (rest st1) as [|c t] eqn:R; [destruct H3|].
  destruct (is_word_or_dash c); [|destruct H3]. destruct H3 as [<-|[]].
  assert (C : class_only (fun _ => True) (cls_times 10 is_word_or_dash))
    by (apply cls_times_class_only; auto).
  destruct (class_only_run C _ _ H4) as [taken [_ [E2 _]]]. cbn [pos] in E2.
  unfold group. cbn [caps lookup Nat.eqb]. rewrite E2.
  replace (S (pos st1) + length taken - pos st1) with (S (length taken)) by lia.
  cbn [firstn]. discriminate.
Qed.

Lemma first_alt_youtube_not_empty : forall rs n s m,
  (forall r, In r rs -> In r youtube_res) ->
  first_alt rs n s = Some m -> group 1 m <> [].
Proof.
  induction rs as [|r rs IH]; intros n s m Hs H; simpl in H; [discriminate|].
  destruct (run_at r n s) eqn:E.
  - injection H as ->. apply (@youtube_group_not_empty r n s m); [|exact E].
    apply Hs. left. reflexivity.
  - apply (IH n s m); [|exact H]. intros r' Hr'. apply Hs. right. exact Hr'.
Qed.

Lemma search_youtube_not_empty : forall s n m,
  search_alt_from youtube_res n s = Some m -> group 1 m <> [].
Proof.
  induction s as [|c s IH]; intros n m H; cbn [search_alt_from] in H.
  - destruct (first_alt youtube_res n []) eqn:E; [|discriminate]. injection H as ->.
    eapply first_alt_youtube_not_empty; eauto.
  - destruct (first_alt youtube_res n (c :: s)) eqn:E.
    + injection H as ->. eapply first_alt_youtube_not_empty; eauto.
    + eapply IH; eauto.
Qed.

Lemma video_id_shape : forall url v,
  _video_id url = Some v ->
  v <> [] /\ Forall (fun c => is_word_or_dash c = true) v.
Proof.
  intros url v H. unfold _video_id in H.
  destruct (search_alt_from youtube_res 0 url) as [m|] eqn:Y.
  - injection H as <-. split.
    + eapply search_youtube_not_empty; eauto.
    + apply (@search_alt_group wd youtube_res url 0 m 1 youtube_captures Y).
  - destruct (search_alt_from instagram_res 0 url) as [m|] eqn:G.
    + injection H as <-. split; [discriminate|].
      repeat (apply Forall_cons; [reflexivity|]).
      apply (@search_alt_group wd instagram_res url 0 m 1 instagram_captures G).
    + destruct (re_search tiktok_re url) as [m|] eqn:T; [|discriminate].
      injection H as <-. split; [discriminate|].
      repeat (apply Forall_cons; [reflexivity|]).
      apply (@search_from_group wd tiktok_re url 0 m 1 tiktok_captures T).
Qed.



End CacheFacts.

(** X16: the identifier of a video is never empty and is made of word
    characters and dashes only (with its prefix [ig_] or [tt_]); it holds
    no path separator and no dot. *)
Theorem video_id_is_a_file_name : forall url v,
  _video_id url = Some v ->
  v <> []
  /\ Forall (fun c => is_word_or_dash c = true) v
  /\ ~ In "/"%char v /\ ~ In "."%char v.
Proof.
  intros url v H. destruct (video_id_shape url H) as [N F].
  split; [exact N|]. split; [exact F|].
  rewrite Forall_forall in F.
  split; intro K; apply F in K; discriminate K.
Qed.

Lemma video_id_is_a_file_name_witness :
  ~ In "/"%char (lit "ig_Cxyz-12_").
Proof.
  apply (@video_id_is_a_file_name
           (lit "https://www.instagram.com/reel/Cxyz-12_/../../etc")
           (lit "ig_Cxyz-12_")).
  vm_compute. reflexivity.
Defined.



(** A transcript with a carriage return is not loaded as it was saved. *)
Lemma cache_carriage_return_not_kept :
  load_cached_transcript (lit "/root") (lit "https://youtu.be/dQw4w9WgXcQ")
    (save_transcript_cache (lit "/root") (lit "https://youtu.be/dQw4w9WgXcQ")
       [carriage_return] (fun _ => None))
  = Some [newline].
Proof. vm_compute. reflexivity. Qed.

Section YoutubeShapes.

Variable ids : str.
Variable tl : str.
Hypothesis ids_length : length ids = 11.
Hypothesis ids_chars : Forall (fun c => is_word_or_dash c = true) ids.

Lemma run_lit_re : forall l n s cs,
  run (lit_re l) {| pos := n; rest := l ++ s; caps := cs |}
  = [{| pos := n + length l; rest := s; caps := cs |}].
Proof.
  induction l as [|c l IH]; intros n s cs.
  - rewrite Nat.add_0_r. destruct s; reflexivity.
  - destruct l as [|c' l].
    + cbn [lit_re run rest app pos caps]. unfold is_char. rewrite char_eqb_refl.
      cbn [length]. rewrite Nat.add_1_r. reflexivity.
    + change (lit_re (c :: c' :: l)) with (Cls (is_char c) +++ lit_re (c' :: l)).
      cbn [run rest app pos caps]. unfold is_char at 1. rewrite char_eqb_refl.
      cbn [flat_map pos caps rest]. rewrite app_nil_r.
      change (c' :: l ++ s) with ((c' :: l) ++ s). rewrite IH.
      replace (S n + length (c' :: l)) with (n + length (c :: c' :: l))
        by (cbn [length]; lia).
      reflexivity.
Qed.

Lemma run_cls_times : forall l n s cs,
  Forall (fun c => is_word_or_dash c = true) l ->
  run (cls_times (length l) is_word_or_dash)
    {| pos := n; rest := l ++ s; caps := cs |}
  = [{| pos := n + length l; rest := s; caps := cs |}].
Proof.
  induction l as [|c l IH]; intros n s cs F.
  - rewrite Nat.add_0_r. destruct s; reflexivity.
  - inversion F as [|? ? Hc Hl]. subst. destruct l as [|c' l].
    + cbn [length cls_times run rest app pos caps]. rewrite Hc.
      rewrite Nat.add_1_r. reflexivity.
    + change (cls_times (length (c :: c' :: l)) is_word_or_dash)
        with (Cls is_word_or_dash +++ cls_times (length (c' :: l)) is_word_or_dash).
      cbn [run rest app pos caps]. rewrite Hc.
      cbn [flat_map pos caps rest]. rewrite app_nil_r.
      change (c' :: l ++ s) with ((c' :: l) ++ s). rewrite (IH _ _ _ Hl).
      replace (S n + length (c' :: l)) with (n + length (c :: c' :: l))
        by (cbn [length]; lia).
      reflexivity.
Qed.

Lemma run_at_lit_group : forall a n,
  run_at (lit_re a +++ Grp 1 (cls_times 11 is_word_or_dash)) n (a ++ ids ++ tl)
  = Some {| pos := n + length a + 11; rest := tl; caps := [(1, ids)] |}.
Proof.
  intros a n. unfold run_at. cbn [run]. rewrite run_lit_re.
  cbn [flat_map]. rewrite app_nil_r. cbn [run].
  rewrite <- ids_length at 1. rewrite (run_cls_times _ _ _ ids_chars).
  cbn [map hd_error pos rest caps]. rewrite ids_length.
  replace (n + length a + 11 - (n + length a)) with (length ids) by lia.
  rewrite firstn_app, firstn_all, Nat.sub_diag. cbn [firstn].
  rewrite app_nil_r. reflexivity.
Qed.

Lemma search_alt_hit : forall rs n s m,
  first_alt rs n s = Some m -> search_alt_from rs n s = Some m.
Proof. intros rs n s m H. destruct s; cbn [search_alt_from]; rewrite H; reflexivity. Qed.

Lemma skip_watch : forall s,
  search_alt_from youtube_res 0 (lit "https://www.youtube.com/watch?" ++ s)
  = search_alt_from youtube_res 30 s.
Proof. reflexivity. Qed.

Lemma skip_scheme : forall s,
  search_alt_from youtube_res 0 (lit "https://" ++ s)
  = search_alt_from youtube_res 8 s.
Proof. reflexivity. Qed.

Lemma skip_host : forall s,
  search_alt_from youtube_res 0 (lit "https://www.youtube.com/" ++ s)
  = search_alt_from youtube_res 24 s.
Proof. reflexivity. Qed.

Lemma youtube_hit : forall a n,
  In a [lit "v="; lit "youtu.be/"; lit "shorts/"] ->
  exists m, search_alt_from youtube_res n (a ++ ids ++ tl) = Some m
            /\ group 1 m = ids.
Proof.
  intros a n H.
  destruct H as [<-|[<-|[<-|[]]]]; eexists; (split; [apply search_alt_hit;
    unfold youtube_res; cbn [map first_alt] | ]).
  - rewrite run_at_lit_group. reflexivity.
  - reflexivity.
  - change (run_at (lit_re (lit "v=") +++ Grp 1 (cls_times 11 is_word_or_dash))
              n (lit "youtu.be/" ++ ids ++ tl)) with (@None mstate).
    rewrite run_at_lit_group. reflexivity.
  - reflexivity.
  - change (run_at (lit_re (lit "v=") +++ Grp 1 (cls_times 11 is_word_or_dash))
              n (lit "shorts/" ++ ids ++ tl)) with (@None mstate).
    change (run_at (lit_re (lit "youtu.be/") +++ Grp 1 (cls_times 11 is_word_or_dash))
              n (lit "shorts/" ++ ids ++ tl)) with (@None mstate).
    rewrite run_at_lit_group. reflexivity.
  - reflexivity.
Qed.

End YoutubeShapes.

(** X18: the three shapes of a YouTube URL give the same identifier: the 11
    characters after [v=], [youtu.be/] or [shorts/], whatever follows
    them. *)
Theorem youtube_urls_share_id : forall ids tl tl' tl'',
  length ids = 11 ->
  Forall (fun c => is_word_or_dash c = true) ids ->
  _video_id (lit "https://www.youtube.com/watch?v=" ++ ids ++ tl) = Some ids
  /\ _video_id (lit "https://youtu.be/" ++ ids ++ tl') = Some ids
  /\ _video_id (lit "https://www.youtube.com/shorts/" ++ ids ++ tl'') = Some ids.
Proof.
  intros ids tl tl' tl'' L F. unfold _video_id. repeat split.
  - change (lit "https://www.youtube.com/watch?v=" ++ ids ++ tl)
      with (lit "https://www.youtube.com/watch?" ++ lit "v=" ++ ids ++ tl).
    rewrite skip_watch.
    destruct (@youtube_hit ids tl L F (lit "v=") 30) as [m [-> G]];
      [left; reflexivity|]. rewrite G. reflexivity.
  - change (lit "https://youtu.be/" ++ ids ++ tl')
      with (lit "https://" ++ lit "youtu.be/" ++ ids ++ tl').
    rewrite skip_scheme.
    destruct (@youtube_hit ids tl' L F (lit "youtu.be/") 8) as [m [-> G]];
      [right; left; reflexivity|]. rewrite G. reflexivity.
  - change (lit "https://www.youtube.com/shorts/" ++ ids ++ tl'')
      with (lit "https://www.youtube.com/" ++ lit "shorts/" ++ ids ++ tl'').
    rewrite skip_host.
    destruct (@youtube_hit ids tl'' L F (lit "shorts/") 24) as [m [-> G]];
      [right; right; left; reflexivity|]. rewrite G. reflexivity.
Qed.

Lemma youtube_urls_share_id_witness :
  _video_id (lit "https://www.youtube.com/watch?v=dQw4w9WgXcQ&t=42")
  = Some (lit "dQw4w9WgXcQ").
Proof.
  apply (@youtube_urls_share_id (lit "dQw4w9WgXcQ") (lit "&t=42") [] []).
  - reflexivity.
  - repeat constructor.
Defined.

(* ================================================================== *)
(** * The run of the pipeline *)
(* ================================================================== *)

Section RunFacts.

Lemma bind_ret : forall (A B : Type) (c : pyres A) (k : A -> pyres B) b,
  bind c k = Ret b -> exists a, c = Ret a /\ k a = Ret b.
Proof.
  intros A B c k b H. destruct c as [a|e]; [|discriminate].
  exists a. split; [reflexivity | exact H].
Qed.

Lemma call_ret : forall (A : Type) (o : outcome A) a, call o = Ret a -> o = Returns a.
Proof. intros A [x|m] a H; [injection H as ->; reflexivity | discriminate]. Qed.

Lemma report_error_fails : forall cb msg result,
  report_error cb msg = Ret result -> success result = false.
Proof.
  intros cb msg result H. unfold report_error in H.
  apply bind_ret in H. destruct H as [u [_ H]]. injection H as <-. reflexivity.
Qed.

Lemma publish_ret : forall w config recipe thumb ov rid url,
  publish_to_tandoor w config recipe thumb ov = Ret (rid, url) ->
  exists r t resp,
    recipe = JObject r
    /\ jsonld_to_tandoor r ov = Some t
    /\ w_post w t = Returns resp
    /\ (p_status resp = 200 \/ p_status resp = 201)%Z
    /\ p_json_id resp = Returns rid
    /\ url = tandoor_url config ++ lit "/view/recipe/"
               ++ match rid with Some i => str_of_int i | None => lit "None" end.
Proof.
  intros w config recipe thumb ov rid url H. unfold publish_to_tandoor in H.
  apply bind_ret in H. destruct H as [r [Hr H]].
  apply bind_ret in H. destruct H as [t [Ht H]].
  apply bind_ret in H. destruct H as [resp [Hp H]].
  destruct (negb _) eqn:S; [discriminate|].
  apply bind_ret in H. destruct H as [rid' [Hi H]].
  injection H as <- <-.
  exists r, t, resp. repeat split.
  - destruct recipe; [injection Hr as ->; reflexivity | discriminate].
  - destruct (jsonld_to_tandoor r ov); [injection Ht as ->; reflexivity | discriminate].
  - apply call_ret. exact Hp.
  - apply negb_false_iff in S. apply orb_true_iff in S.
    destruct S as [S|S]; apply Z.eqb_eq in S; [left|right]; exact S.
  - apply call_ret. exact Hi.
Qed.

Lemma process_video_try_ret : forall w config cb no_cache result,
  process_video_try w config cb no_cache = Ret result ->
  exists r t resp rid,
    recipe_data result = Some (JObject r)
    /\ jsonld_to_tandoor r None = Some t
    /\ w_post w t = Returns resp
    /\ (p_status resp = 200 \/ p_status resp = 201)%Z
    /\ p_json_id resp = Returns rid
    /\ recipe_url result
       = tandoor_url config ++ lit "/view/recipe/"
           ++ match rid with Some i => str_of_int i | None => lit "None" end
    /\ recipe_name result = get_or (lit "Unknown") (r_name r)
    /\ error_message result = [].
Proof.
  intros w config cb no_cache result H. unfold process_video_try in H.
  apply bind_ret in H. destruct H as [d [_ H]].
  destruct (call (w_cleanup w)); [|discriminate].
  apply bind_ret in H. destruct H as [cached [_ H]].
  apply bind_ret in H. destruct H as [transcript [_ H]].
  apply bind_ret in H. destruct H as [u1 [_ H]].
  apply bind_ret in H. destruct H as [recipe [_ H]].
  apply bind_ret in H. destruct H as [r [Hr H]].
  apply bind_ret in H. destruct H as [thumb [_ H]].
  apply bind_ret in H. destruct H as [pthumb [_ H]].
  apply bind_ret in H. destruct H as [u2 [_ H]].
  apply bind_ret in H. destruct H as [[rid url] [Hp H]].
  apply bind_ret in H. destruct H as [u3 [_ H]].
  injection H as <-.
  destruct (publish_ret _ _ _ _ _ Hp) as [r' [t [resp [E [Ht [Hw [Hs [Hi Hu]]]]]]]].
  subst recipe. cbn [as_object] in Hr. injection Hr as Hr. subst r.
  exists r', t, resp, rid. cbn [recipe_data recipe_url recipe_name error_message].
  repeat split; assumption.
Qed.

End RunFacts.

(** X19: a run reports a success only if Tandoor answered the POST of the
    converted recipe with the status 200 or 201; the URL reported is made
    of the id of that answer, and no error message comes with it. *)
Theorem success_means_published : forall w config callbacks no_cache result,
  process_video w config callbacks no_cache = Ret result ->
  success result = true ->
  exists r t resp rid,
    recipe_data result = Some (JObject r)
    /\ jsonld_to_tandoor r None = Some t
    /\ w_post w t = Returns resp
    /\ (p_status resp = 200 \/ p_status resp = 201)%Z
    /\ p_json_id resp = Returns rid
    /\ recipe_url result
       = tandoor_url config ++ lit "/view/recipe/"
           ++ match rid with Some i => str_of_int i | None => lit "None" end
    /\ recipe_name result = get_or (lit "Unknown") (r_name r)
    /\ error_message result = [].
Proof.
  intros w config callbacks no_cache result H S. unfold process_video in H.
  destruct (process_video_try w config _ no_cache) as [res|[m|m]] eqn:E.
  - injection H as ->. eapply process_video_try_ret. exact E.
  - apply report_error_fails in H. congruence.
  - apply report_error_fails in H. congruence.
Qed.

Lemma success_means_published_witness :
  exists result,
    process_video world_that_publishes demo_config None false = Ret result
    /\ exists r t resp rid,
         recipe_data result = Some (JObject r)
         /\ jsonld_to_tandoor r None = Some t
         /\ w_post world_that_publishes t = Returns resp
         /\ (p_status resp = 200 \/ p_status resp = 201)%Z
         /\ p_json_id resp = Returns rid
         /\ recipe_url result
            = tandoor_url demo_config ++ lit "/view/recipe/"
                ++ match rid with Some i => str_of_int i | None => lit "None" end
         /\ recipe_name result = get_or (lit "Unknown") (r_name r)
         /\ error_message result = [].
Proof.
  eexists. split; [vm_compute; reflexivity|].
  apply (@success_means_published world_that_publishes demo_config None false).
  - vm_compute. reflexivity.
  - reflexivity.
Defined.

(** X20: when the cache holds a transcript and [no_cache] is not set, the
    run does not depend on the downloader, on the transcriber, on the
    writing of the cache or on the callbacks of these two stages. *)
Theorem cached_transcript_skips_download : forall w w' config cb cb' c t,
  w_cached_transcript w = Returns (Some (c :: t)) ->
  same_after_cache w w' ->
  same_after_download cb cb' ->
  process_video w config (Some cb) false = process_video w' config (Some cb') false.
Proof.
  intros w w' config cb cb' c t Hc Hw Hcb.
  destruct Hw as [E1 [E2 [E3 [E4 [E5 [E6 [E7 E8]]]]]]].
  destruct Hcb as [F1 [F2 [F3 F4]]].
  unfold process_video, process_video_try, extract_recipe, publish_to_tandoor,
    report_error.
  rewrite <- E1, <- E2, <- E3, <- E4, <- E5, <- E6, <- E7, <- E8.
  rewrite <- F1, <- F2, <- F3, <- F4.
  rewrite Hc. reflexivity.
Qed.

Lemma cached_transcript_skips_download_witness :
  process_video world_that_publishes demo_config (Some no_callbacks) false
  = process_video (offline world_that_publishes) demo_config (Some no_callbacks) false.
Proof.
  apply (@cached_transcript_skips_download world_that_publishes
           (offline world_that_publishes) demo_config no_callbacks no_callbacks
           "B"%char (lit "oil the pasta.")).
  - reflexivity.
  - repeat split.
  - repeat split.
Defined.

(** X21: with no cached transcript and no callbacks, a downloader that
    ends with a status other than 0 gives a failure whose message is
    [yt-dlp failed: ] and what the downloader wrote to its error stream,
    stripped; nothing is transcribed, extracted or published. *)
Theorem download_failure_is_reported : forall w config no_cache d u cached cp,
  w_mkdtemp w = Returns d ->
  w_cleanup w = Returns u ->
  w_cached_transcript w = Returns cached ->
  (cached = None \/ cached = Some [] \/ no_cache = true) ->
  w_ytdlp w = Returns cp ->
  returncode cp <> 0%Z ->
  process_video w config None no_cache
  = Ret (failure (lit "yt-dlp failed: " ++ strip (stderr cp))).
Proof.
  intros w config no_cache d u cached cp Hd Hu Hc Hn Hy Hr.
  assert (Z : negb (returncode cp =? 0)%Z = true).
  { apply negb_true_iff. apply Z.eqb_neq. exact Hr. }
  unfold process_video, process_video_try, download_audio.
  rewrite Hd, Hu, Hc. cbn [call bind run_callback on_downloading].
  destruct Hn as [->|[->| ->]].
  - rewrite Hy. cbn [call bind]. rewrite Z. reflexivity.
  - rewrite Hy. cbn [call bind]. rewrite Z. reflexivity.
  - destruct cached as [[|c t]|]; cbn [negb]; rewrite Hy; cbn [call bind];
      rewrite Z; reflexivity.
Qed.

Lemma download_failure_is_reported_witness :
  process_video world_without_network demo_config None true
  = Ret (failure (lit "yt-dlp failed: " ++ strip (lit "ERROR: unable to download"))).
Proof.
  apply (@download_failure_is_reported world_without_network demo_config true
           (lit "/tmp/tmpdir") tt None
           {| returncode := 1%Z; stdout := [];
              stderr := lit "ERROR: unable to download" |}).
  - reflexivity.
  - reflexivity.
  - reflexivity.
  - left. reflexivity.
  - reflexivity.
  - discriminate.
Defined.

(* ================================================================== *)
(** * The fences around a response *)
(* ================================================================== *)

Section FenceFacts.

Let tick : ascii := "`"%char.

Lemma strip_fixed : forall c mid e,
  is_space c = false -> is_space e = false ->
  strip (c :: mid ++ [e]) = c :: mid ++ [e].
Proof.
  intros c mid e Hc He.
  change (c :: mid ++ [e]) with ([] ++ c :: (mid ++ [e])).
  rewrite strip_app_mid by exact Hc.
  rewrite rstrip_app_mid by exact He. reflexivity.
Qed.

Lemma fenced_shape : forall tag body,
  fenced tag body
  = tick :: (tick :: tick :: tag ++ newline :: body ++ [newline; tick; tick]) ++ [tick].
Proof.
  intros tag body. unfold fenced, fence, tick. cbn.
  rewrite <- !app_assoc. cbn. rewrite <- !app_assoc. reflexivity.
Qed.

Lemma strip_fenced : forall tag body, strip (fenced tag body) = fenced tag body.
Proof.
  intros tag body. rewrite fenced_shape. apply strip_fixed; reflexivity.
Qed.

Lemma find_sep_prefix : forall sep r, find_sep sep (sep ++ r) = Some ([], r).
Proof.
  intros sep r. destruct (sep ++ r) as [|c s] eqn:E; cbn [find_sep];
    rewrite <- E, strip_prefix_self; reflexivity.
Qed.

Lemma rstrip_app_blank : forall x y, rstrip y = [] -> rstrip (x ++ y) = rstrip x.
Proof.
  induction x as [|c x IH]; intros y H; cbn [app rstrip].
  - exact H.
  - rewrite (IH y H). reflexivity.
Qed.

Lemma strip_app_newline : forall body,
  strip body = body -> strip (body ++ [newline]) = body.
Proof.
  intros [|c t] H; [reflexivity|].
  pose proof (strip_head _ H) as Hc.
  unfold strip in *. cbn [app lstrip] in *. rewrite Hc in *.
  change (c :: t ++ [newline]) with ((c :: t) ++ [newline]).
  rewrite rstrip_app_blank by reflexivity. exact H.
Qed.

Lemma split1_fenced : forall tag body,
  ~ In newline tag ->
  split1 [newline] (fenced tag body) = [fence ++ tag; body ++ [newline] ++ fence].
Proof.
  intros tag body H. unfold split1, fenced.
  rewrite app_assoc. cbn [app].
  rewrite find_sep_char_some; [reflexivity|].
  intro K. apply in_app_or in K. destruct K as [K|K]; [|exact (H K)].
  cbn in K. intuition discriminate.
Qed.

Lemma ends_with_closing : forall body,
  ends_with fence (body ++ [newline] ++ fence) = true
  /\ rsplit1_head fence (body ++ [newline] ++ fence) = body ++ [newline].
Proof.
  intro body. unfold ends_with, rsplit1_head, starts_with.
  rewrite app_assoc, rev_app_distr.
  rewrite strip_prefix_self, find_sep_prefix, rev_involutive.
  split; reflexivity.
Qed.

End FenceFacts.

(** X22: a response in a fence is read as the text between the fences:
    for a text that is stripped and neither starts nor ends with a fence,
    the response with the fences and a language tag around it gives what
    the text alone gives. *)
Theorem fence_is_transparent : forall w w' tag body,
  strip body = body ->
  starts_with fence body = false ->
  ends_with fence body = false ->
  ~ In newline tag ->
  w_json_loads w' = w_json_loads w ->
  answers w body ->
  answers w' (fenced tag body) ->
  extract_recipe w' = extract_recipe w.
Proof.
  intros w w' tag body Hs Hb He Ht Hl [err Hw] [err' Hw'].
  destruct (ends_with_closing body) as [C1 C2].
  unfold extract_recipe. rewrite Hw, Hw', Hl.
  cbn [call bind returncode stdout Z.eqb negb].
  rewrite strip_fenced, Hs.
  replace (starts_with fence (fenced tag body)) with true
    by (unfold starts_with, fenced; rewrite strip_prefix_self; reflexivity).
  rewrite Hb, split1_fenced by exact Ht.
  cbn [bind]. rewrite C1, C2, He, Hs, strip_app_newline by exact Hs.
  reflexivity.
Qed.

Lemma fence_is_transparent_witness :
  extract_recipe (answering world_that_publishes (fenced (lit "json") (lit "{}")))
  = extract_recipe (answering world_that_publishes (lit "{}")).
Proof.
  apply (@fence_is_transparent (answering world_that_publishes (lit "{}"))
           (answering world_that_publishes (fenced (lit "json") (lit "{}")))
           (lit "json") (lit "{}")).
  - reflexivity.
  - reflexivity.
  - reflexivity.
  - cbn. intuition discriminate.
  - reflexivity.
  - exists []. reflexivity.
  - exists []. reflexivity.
Defined.

(** X23: a response that starts with a fence and holds no line break makes
    the extraction raise an index error, which is no [PipelineError]. *)
Theorem fence_without_newline_is_index_error : forall w out,
  answers w out ->
  starts_with fence (strip out) = true ->
  ~ In newline (strip out) ->
  extract_recipe w = Raise (OtherException (lit "list index out of range")).
Proof.
  intros w out [err Hw] Hs Hn. unfold extract_recipe. rewrite Hw.
  cbn [call bind returncode stdout Z.eqb negb]. rewrite Hs.
  unfold split1. rewrite find_sep_char_none by exact Hn. reflexivity.
Qed.

Lemma fence_without_newline_is_index_error_witness :
  extract_recipe (answering world_that_publishes (lit "```{}```"))
  = Raise (OtherException (lit "list index out of range")).
Proof.
  apply (@fence_without_newline_is_index_error
           (answering world_that_publishes (lit "```{}```")) (lit "```{}```")).
  - exists []. reflexivity.
  - reflexivity.
  - vm_compute. intuition discriminate.
Defined.

(** The run of such a response ends as a failure the caller is told of. *)
Lemma run_with_single_line_fence :
  process_video (answering world_that_publishes (lit "```{}```")) demo_config None false
  = Ret (failure (lit "Unexpected error: list index out of range")).
Proof. vm_compute. reflexivity. Qed.

(* ================================================================== *)
(** * The fallback file *)
(* ================================================================== *)

Import Cli.

Section FallbackFacts.

Lemma safe_name_chars : forall name c,
  In c (safe_name_of name) -> name_char c.
Proof.
  intros name c H. unfold safe_name_of in H. apply filter_In in H.
  destruct H as [_ H]. apply orb_true_iff in H. destruct H as [H|H].
  - left. exact H.
  - apply contains_char_true in H. cbn in H. right.
    destruct H as [<-|[<-|[]]]; [left|right]; reflexivity.
Qed.

Lemma name_char_not_space : forall c, name_char c -> char_eqb c " " = false.
Proof.
  intros c H. apply char_eqb_neq. intros ->.
  destruct H as [H|[H|H]]; discriminate H.
Qed.

Lemma filter_all : forall (A : Type) (p : A -> bool) l,
  (forall x, In x l -> p x = true) -> filter p l = l.
Proof.
  intros A p. induction l as [|x l IH]; intro H; cbn [filter]; [reflexivity|].
  rewrite (H x) by (left; reflexivity). f_equal. apply IH.
  intros y Hy. apply H. right. exact Hy.
Qed.

Lemma replace_char_absent : forall a b s,
  (forall c, In c s -> char_eqb c a = false) -> replace_char a b s = s.
Proof.
  intros a b. induction s as [|x s IH]; intro H; cbn [replace_char map]; [reflexivity|].
  rewrite (H x) by (left; reflexivity). f_equal. apply IH.
  intros y Hy. apply H. right. exact Hy.
Qed.

End FallbackFacts.

(** X24: whatever the name of the recipe, the fallback file is written to
    the current directory: its path holds no separator and no space, the
    part before [_tandoor.json] is made of alphanumeric characters,
    underscores and dashes, and cleaning it again changes nothing. *)
Theorem fallback_path_is_plain_file : forall t,
  ~ In "/"%char (fallback_path t)
  /\ ~ In " "%char (fallback_path t)
  /\ Forall name_char (safe_name_of (t_name t))
  /\ safe_name_of (safe_name_of (t_name t)) = safe_name_of (t_name t).
Proof.
  intro t. pose proof (@safe_name_chars (t_name t)) as S.
  assert (N : forall c, ~ name_char c -> ~ In c (lit "_tandoor.json") ->
                        ~ In c (fallback_path t)).
  { intros c Hc Hs K. unfold fallback_path in K. apply in_app_or in K.
    destruct K as [K|K]; [apply Hc, S, K | exact (Hs K)]. }
  split; [|split; [|split]].
  - apply N; [|cbn; intuition discriminate].
    intros [H|[H|H]]; discriminate H.
  - apply N; [|cbn; intuition discriminate].
    intros [H|[H|H]]; discriminate H.
  - apply Forall_forall. exact S.
  - unfold safe_name_of at 1. rewrite replace_char_absent.
    + apply filter_all. intros c Hc. unfold safe_name_of in Hc.
      apply filter_In in Hc. exact (proj2 Hc).
    + intros c Hc. apply name_char_not_space. apply S. exact Hc.
Qed.
